(** * GPUSPH: global simulation state and buffer lists

    A shallow embedding of [src/GlobalData.h] (grid indexing, device lookup,
    double-buffer generation indices) and of [src/buffer.h] (typed buffers
    and the keyed [BufferList]), with the properties of the specification
    stated and proved over it.

    Conventions.  A C++ [unsigned int] is a [Z] in [[0, 2^32)] and an [int]
    a [Z] in [[-2^31, 2^31)]; arithmetic in either type is written with its
    reduction modulo [2^32].  Undefined behaviour (division by zero, a read
    through a null or dangling pointer, a float that does not fit [int],
    an [int] incremented at [INT_MAX], a pointer moved past the end of its
    array) is the absence of a result.  What the sources use without
    declaring it (the keys of the buffers, the split of a device
    identifier, the overload of [min]) is a parameter of the definitions
    that depend on it. *)

From Stdlib Require Import ZArith Lia Bool String DecimalString.
From Stdlib Require Import Floats.SpecFloat.
From stdpp Require Import base option list sorting gmap fin_maps.

Local Open Scope Z_scope.

(** ** Machine integers *)

Module MachineInt.

Definition UINT_MOD : Z := 2 ^ 32.
Definition INT_MAX : Z := 2 ^ 31 - 1.
Definition INT_MIN : Z := - 2 ^ 31.

  (** Conversion to [unsigned int]: reduction modulo [2^32]. *)
Definition to_uint (v : Z) : Z := v mod UINT_MOD.

  (** Conversion to [int]: the two's-complement reading of the low 32 bits. *)
Definition to_int (v : Z) : Z := (v + 2 ^ 31) mod UINT_MOD - 2 ^ 31.

Definition is_uint (v : Z) : Prop := 0 <= v < UINT_MOD.
Definition is_int (v : Z) : Prop := INT_MIN <= v <= INT_MAX.

  (** [unsigned int] arithmetic; an [int] operand is converted first. *)
Definition uadd (a b : Z) : Z := to_uint (a + b).
Definition usub (a b : Z) : Z := to_uint (a - b).
Definition umul (a b : Z) : Z := to_uint (a * b).

  (** Unsigned division; dividing by zero is undefined. *)
Definition udiv (a b : Z) : option Z :=
    if b =? 0 then None else Some (a / b).

  (** [max(int, int)]. *)
Definition max_ii (a b : Z) : Z := Z.max a b.

  (** No [min] is declared in the sources at hand: which function the
      call [min(int, unsigned int)] selects is decided by the headers of
      the build.  The CUDA host headers declare the mixed overload
      [min(int, unsigned int)], which compares in [unsigned int]; where
      only [min(int, int)] is in scope, the [unsigned int] argument is
      converted to [int] and the comparison is signed.  The choice is a
      parameter of the functions that call [min]. *)
Inductive min_overload : Type :=
  | min_int_uint
  | min_int_int.

Definition min_iu (a b : Z) : Z := Z.min (to_uint a) b.
Definition min_ii (a b : Z) : Z := Z.min a (to_int b).

Definition min_mixed (ov : min_overload) (a b : Z) : Z :=
  match ov with
  | min_int_uint => min_iu a b
  | min_int_int => min_ii a b
  end.

End MachineInt.
Import MachineInt.

(** ** Vector types *)

Record vec3 (A : Type) : Type := make_vec3 { x_ : A; y_ : A; z_ : A }.
Arguments make_vec3 {A} _ _ _.
Arguments x_ {A} _.
Arguments y_ {A} _.
Arguments z_ {A} _.

Record vec4 (A : Type) : Type :=
  make_vec4 { x4 : A; y4 : A; z4 : A; w4 : A }.
Arguments make_vec4 {A} _ _ _ _.
Arguments x4 {A} _.
Arguments y4 {A} _.
Arguments z4 {A} _.
Arguments w4 {A} _.

Definition is_int3 (p : vec3 Z) : Prop :=
  is_int (x_ p) /\ is_int (y_ p) /\ is_int (z_ p).

Definition is_uint3 (p : vec3 Z) : Prop :=
  is_uint (x_ p) /\ is_uint (y_ p) /\ is_uint (z_ p).

(** ** Single-precision floats *)

Module Float32.

Definition prec : Z := 24.
Definition emax : Z := 128.

Definition float : Type := spec_float.

Definition fsub : float -> float -> float := SFsub prec emax.
Definition fdiv : float -> float -> float := SFdiv prec emax.

  (** The float of an integer (exact for the small integers used below). *)
Definition of_Z (n : Z) : float :=
    match n with
    | Z0 => S754_zero false
    | Zpos p => binary_normalize prec emax (Zpos p) 0 false
    | Zneg p => binary_normalize prec emax (Zneg p) 0 true
    end.

  (** [m * 2^e] for a finite float given by mantissa and exponent. *)
Definition scaled (m e : Z) : float := binary_normalize prec emax m e false.

  (** [floor] followed by the conversion to [int].  The floor of a finite
      float [±m·2^e] is an integer; the conversion is undefined for NaN,
      the infinities and values outside the range of [int]. *)
Definition floor_Z (f : float) : option Z :=
    match f with
    | S754_zero _ => Some 0
    | S754_finite s m e =>
        let v := if s then Zneg m else Zpos m in
        Some (if 0 <=? e then v * 2 ^ e else v / 2 ^ (- e))
    | S754_infinity _ | S754_nan => None
    end.

Definition floor_to_int (f : float) : option Z :=
    match floor_Z f with
    | Some v => if (INT_MIN <=? v) && (v <=? INT_MAX) then Some v else None
    | None => None
    end.

End Float32.
Import Float32.

(** ** Commands *)

Inductive CommandType : Type :=
  | IDLE | CALCHASH | SORT | CROP | REORDER | BUILDNEIBS | FORCES | EULER
  | DUMP | DUMP_CELLS | UPDATE_SEGMENTS | APPEND_EXTERNAL | UPDATE_EXTERNAL
  | MLS | SHEPARD | VORTICITY | SURFACE_PARTICLES | CALC_PROBES
  | CALC_TESTPOINTS | MF_INIT_GAMMA | MF_UPDATE_GAMMA | MF_UPDATE_POS
  | MF_CALC_BOUND_CONDITIONS | MF_UPDATE_BOUND_VALUES | SPS | MEAN_STRAIN
  | REDUCE_BODIES_FORCES | UPLOAD_MBDATA | UPLOAD_GRAVITY | UPLOAD_PLANES
  | UPLOAD_OBJECTS_CG | UPLOAD_OBJECTS_MATRICES | QUIT.

Definition NO_FLAGS : Z := 0.
Definition INITIALIZATION_STEP : Z := 1.
Definition INTEGRATOR_STEP_1 : Z := Z.shiftl INITIALIZATION_STEP 1.
Definition INTEGRATOR_STEP_2 : Z := Z.shiftl INTEGRATOR_STEP_1 1.
Definition LAST_DEFINED_STEP : Z := INTEGRATOR_STEP_2.
Definition FIRST_DEFINED_BUFFER : Z := Z.shiftl LAST_DEFINED_STEP 1.

(** ** The double-buffered quantities

    One constructor per buffer key that [BUFFERS_ALL_DBL] lists. *)

Inductive Quantity : Type :=
  | POS | VEL | INFO | BOUNDELEMENTS | GRADGAMMA | VERTICES
  | PRESSURE | TKE | EPSILON | TURBVISC | STRAIN_RATE.

Definition all_quantities : list Quantity :=
  [POS; VEL; INFO; BOUNDELEMENTS; GRADGAMMA; VERTICES;
   PRESSURE; TKE; EPSILON; TURBVISC; STRAIN_RATE].

(** ** GlobalData

    The fields that the modelled member functions read or write, and the
    scalar fields the constructor initialises.  The pointers to
    collaborators (workers, problem, writer, network manager), the host
    arrays other than the device map and the rigid-body arrays are not
    read by any function below and are left out. *)

Record GlobalData : Type := mkGlobalData {
  devices : Z;
  mpi_nodes : Z;
  mpi_rank : Z;
  totDevices : Z;
  totParticles : Z;
  worldSize : vec3 float;
  worldOrigin : vec3 float;
  cellSize : vec3 float;
  gridSize : vec3 Z;
  nGridCells : Z;
  (** [uchar *s_hDeviceMap]: null, or an array of bytes. *)
  s_hDeviceMap : option (list Z);
  currentPosRead : Z;
  currentPosWrite : Z;
  currentVelRead : Z;
  currentVelWrite : Z;
  currentInfoRead : Z;
  currentInfoWrite : Z;
  currentBoundElementRead : Z;
  currentBoundElementWrite : Z;
  currentGradGammaRead : Z;
  currentGradGammaWrite : Z;
  currentVerticesRead : Z;
  currentVerticesWrite : Z;
  currentPressureRead : Z;
  currentPressureWrite : Z;
  currentTKERead : Z;
  currentTKEWrite : Z;
  currentEpsRead : Z;
  currentEpsWrite : Z;
  currentTurbViscRead : Z;
  currentTurbViscWrite : Z;
  currentStrainRateRead : Z;
  currentStrainRateWrite : Z;
  mbDataSize : Z;
  numPlanes : Z;
  keep_going : bool;
  quit_request : bool;
  iterations : Z;
  nextCommand : CommandType;
  commandFlags : Z;
  only_internal : bool;
  nosave : bool
}.

(** Read and write generation index of a quantity. *)
Definition readIndex (gd : GlobalData) (q : Quantity) : Z :=
  match q with
  | POS => currentPosRead gd
  | VEL => currentVelRead gd
  | INFO => currentInfoRead gd
  | BOUNDELEMENTS => currentBoundElementRead gd
  | GRADGAMMA => currentGradGammaRead gd
  | VERTICES => currentVerticesRead gd
  | PRESSURE => currentPressureRead gd
  | TKE => currentTKERead gd
  | EPSILON => currentEpsRead gd
  | TURBVISC => currentTurbViscRead gd
  | STRAIN_RATE => currentStrainRateRead gd
  end.

Definition writeIndex (gd : GlobalData) (q : Quantity) : Z :=
  match q with
  | POS => currentPosWrite gd
  | VEL => currentVelWrite gd
  | INFO => currentInfoWrite gd
  | BOUNDELEMENTS => currentBoundElementWrite gd
  | GRADGAMMA => currentGradGammaWrite gd
  | VERTICES => currentVerticesWrite gd
  | PRESSURE => currentPressureWrite gd
  | TKE => currentTKEWrite gd
  | EPSILON => currentEpsWrite gd
  | TURBVISC => currentTurbViscWrite gd
  | STRAIN_RATE => currentStrainRateWrite gd
  end.

(** [GlobalData::GlobalData(void)].  The member-initialiser list names the
    fields below; every other field keeps whatever the storage [raw] of the
    object held before the constructor ran.  The constructor body only
    clears [dts] and the rigid-body arrays, which are not modelled. *)
Definition GlobalData_ctor (raw : GlobalData) : GlobalData :=
  {| devices := 0;
     mpi_nodes := 0;
     mpi_rank := -1;
     totDevices := 0;
     totParticles := 0;
     worldSize := worldSize raw;
     worldOrigin := worldOrigin raw;
     cellSize := cellSize raw;
     gridSize := gridSize raw;
     nGridCells := 0;
     s_hDeviceMap := None;
     currentPosRead := currentPosRead raw;
     currentPosWrite := currentPosWrite raw;
     currentVelRead := currentVelRead raw;
     currentVelWrite := currentVelWrite raw;
     currentInfoRead := currentInfoRead raw;
     currentInfoWrite := currentInfoWrite raw;
     currentBoundElementRead := currentBoundElementRead raw;
     currentBoundElementWrite := currentBoundElementWrite raw;
     currentGradGammaRead := currentGradGammaRead raw;
     currentGradGammaWrite := currentGradGammaWrite raw;
     currentVerticesRead := currentVerticesRead raw;
     currentVerticesWrite := currentVerticesWrite raw;
     currentPressureRead := currentPressureRead raw;
     currentPressureWrite := currentPressureWrite raw;
     currentTKERead := currentTKERead raw;
     currentTKEWrite := currentTKEWrite raw;
     currentEpsRead := currentEpsRead raw;
     currentEpsWrite := currentEpsWrite raw;
     currentTurbViscRead := currentTurbViscRead raw;
     currentTurbViscWrite := currentTurbViscWrite raw;
     currentStrainRateRead := currentStrainRateRead raw;
     currentStrainRateWrite := currentStrainRateWrite raw;
     mbDataSize := 0;
     numPlanes := 0;
     keep_going := true;
     quit_request := false;
     iterations := 0;
     nextCommand := IDLE;
     commandFlags := NO_FLAGS;
     only_internal := false;
     nosave := false |}.

(** Assignment to the six indices that [swapDeviceBuffers] can touch. *)
Definition set_pos_vel_info (pr pw vr vw ir iw : Z) (gd : GlobalData)
  : GlobalData :=
  {| devices := devices gd;
     mpi_nodes := mpi_nodes gd;
     mpi_rank := mpi_rank gd;
     totDevices := totDevices gd;
     totParticles := totParticles gd;
     worldSize := worldSize gd;
     worldOrigin := worldOrigin gd;
     cellSize := cellSize gd;
     gridSize := gridSize gd;
     nGridCells := nGridCells gd;
     s_hDeviceMap := s_hDeviceMap gd;
     currentPosRead := pr;
     currentPosWrite := pw;
     currentVelRead := vr;
     currentVelWrite := vw;
     currentInfoRead := ir;
     currentInfoWrite := iw;
     currentBoundElementRead := currentBoundElementRead gd;
     currentBoundElementWrite := currentBoundElementWrite gd;
     currentGradGammaRead := currentGradGammaRead gd;
     currentGradGammaWrite := currentGradGammaWrite gd;
     currentVerticesRead := currentVerticesRead gd;
     currentVerticesWrite := currentVerticesWrite gd;
     currentPressureRead := currentPressureRead gd;
     currentPressureWrite := currentPressureWrite gd;
     currentTKERead := currentTKERead gd;
     currentTKEWrite := currentTKEWrite gd;
     currentEpsRead := currentEpsRead gd;
     currentEpsWrite := currentEpsWrite gd;
     currentTurbViscRead := currentTurbViscRead gd;
     currentTurbViscWrite := currentTurbViscWrite gd;
     currentStrainRateRead := currentStrainRateRead gd;
     currentStrainRateWrite := currentStrainRateWrite gd;
     mbDataSize := mbDataSize gd;
     numPlanes := numPlanes gd;
     keep_going := keep_going gd;
     quit_request := quit_request gd;
     iterations := iterations gd;
     nextCommand := nextCommand gd;
     commandFlags := commandFlags gd;
     only_internal := only_internal gd;
     nosave := nosave gd |}.

(** [std::swap] on one pair of indices. *)
Definition swap_Pos (gd : GlobalData) : GlobalData :=
  set_pos_vel_info (currentPosWrite gd) (currentPosRead gd)
                   (currentVelRead gd) (currentVelWrite gd)
                   (currentInfoRead gd) (currentInfoWrite gd) gd.

Definition swap_Vel (gd : GlobalData) : GlobalData :=
  set_pos_vel_info (currentPosRead gd) (currentPosWrite gd)
                   (currentVelWrite gd) (currentVelRead gd)
                   (currentInfoRead gd) (currentInfoWrite gd) gd.

Definition swap_Info (gd : GlobalData) : GlobalData :=
  set_pos_vel_info (currentPosRead gd) (currentPosWrite gd)
                   (currentVelRead gd) (currentVelWrite gd)
                   (currentInfoWrite gd) (currentInfoRead gd) gd.

(** The C++ truth value of [buffers & flag]. *)
Definition flag_set (buffers flag : Z) : bool :=
  negb (Z.land buffers flag =? 0).

Section SwapDeviceBuffers.

  (** The buffer keys [BUFFER_POS], [BUFFER_VEL], ... come from
      [define_buffers.h], which is not part of the sources at hand; the
      key of each quantity is a parameter. *)
Variable BUFFER : Quantity -> Z.

  (** [GlobalData::swapDeviceBuffers]. *)
Definition swapDeviceBuffers (buffers : Z) (gd : GlobalData) : GlobalData :=
    let gd1 := if flag_set buffers (BUFFER POS) then swap_Pos gd else gd in
    let gd2 := if flag_set buffers (BUFFER VEL) then swap_Vel gd1 else gd1 in
    if flag_set buffers (BUFFER INFO) then swap_Info gd2 else gd2.

  (** A sequence of calls, first call first. *)
Definition swapDeviceBuffers_seq (calls : list Z) (gd : GlobalData)
    : GlobalData :=
    fold_left (fun g buffers => swapDeviceBuffers buffers g) calls gd.

  (** The quantity [q] is named in the flag argument. *)
Definition named (buffers : Z) (q : Quantity) : Prop :=
    Z.land buffers (BUFFER q) <> 0.

End SwapDeviceBuffers.

(** [BUFFERS_ALL_DBL]: the union of the keys of all double buffers. *)
Definition BUFFERS_ALL_DBL (BUFFER : Quantity -> Z) : Z :=
  fold_right (fun q acc => Z.lor (BUFFER q) acc) 0 all_quantities.

(** ** Grid indexing *)

Section Grid.

Variable ov : min_overload.
Variable gd : GlobalData.

Let gx := x_ (gridSize gd).
Let gy := y_ (gridSize gd).
Let gz := z_ (gridSize gd).

  (** [calcGridPosHost(float3 pos)]. *)
Definition calcGridPosHost (pos : vec3 float) : option (vec3 Z) :=
    gpx ← floor_to_int (fdiv (fsub (x_ pos) (x_ (worldOrigin gd)))
                             (x_ (cellSize gd)));
    gpy ← floor_to_int (fdiv (fsub (y_ pos) (y_ (worldOrigin gd)))
                             (y_ (cellSize gd)));
    gpz ← floor_to_int (fdiv (fsub (z_ pos) (z_ (worldOrigin gd)))
                             (z_ (cellSize gd)));
    Some (make_vec3 gpx gpy gpz).

  (** [calcGridPosHost(float px, float py, float pz)]. *)
Definition calcGridPosHost3 (px py pz : float) : option (vec3 Z) :=
    gpx ← floor_to_int (fdiv (fsub px (x_ (worldOrigin gd)))
                             (x_ (cellSize gd)));
    gpy ← floor_to_int (fdiv (fsub py (y_ (worldOrigin gd)))
                             (y_ (cellSize gd)));
    gpz ← floor_to_int (fdiv (fsub pz (z_ (worldOrigin gd)))
                             (z_ (cellSize gd)));
    Some (make_vec3 gpx gpy gpz).

  (** The first three statements of [calcGridHashHost]: each coordinate is
      replaced by [min(max(0, c), gridSize.c - 1)], stored back as [int]. *)
Definition clampGridPos (gridPos : vec3 Z) : vec3 Z :=
    make_vec3
      (to_int (min_mixed ov (max_ii 0 (x_ gridPos)) (usub gx 1)))
      (to_int (min_mixed ov (max_ii 0 (y_ gridPos)) (usub gy 1)))
      (to_int (min_mixed ov (max_ii 0 (z_ gridPos)) (usub gz 1))).

  (** The return expression of [calcGridHashHost], in [unsigned int]. *)
Definition linearize (c : vec3 Z) : Z :=
    uadd (uadd (umul (umul (to_uint (z_ c)) gy) gx)
               (umul (to_uint (y_ c)) gx))
         (to_uint (x_ c)).

  (** [calcGridHashHost(int3 gridPos)]. *)
Definition calcGridHashHost (gridPos : vec3 Z) : Z :=
    linearize (clampGridPos gridPos).

  (** [calcGridHashHost(int cellX, int cellY, int cellZ)]. *)
Definition calcGridHashHost3 (cellX cellY cellZ : Z) : Z :=
    let trimmedX := to_int (min_mixed ov (max_ii 0 cellX) (usub gx 1)) in
    let trimmedY := to_int (min_mixed ov (max_ii 0 cellY) (usub gy 1)) in
    let trimmedZ := to_int (min_mixed ov (max_ii 0 cellZ) (usub gz 1)) in
    uadd (uadd (umul (umul (to_uint trimmedZ) gy) gx)
               (umul (to_uint trimmedY) gx))
         (to_uint trimmedX).

  (** [calcGridPosFromHash]: the result is a [uint3]. *)
Definition calcGridPosFromHash (particleHash : Z) : option (vec3 Z) :=
    pz ← udiv particleHash (umul gx gy);
    py ← udiv (usub particleHash (umul (umul pz gx) gy)) gx;
    let px := usub (usub particleHash (umul py gx))
                   (umul (umul pz gx) gy) in
    Some (make_vec3 px py pz).

  (** [reverseGridHashHost]: the result is an [int3]. *)
Definition reverseGridHashHost (cell_lin_idx : Z) : option (vec3 Z) :=
    qz ← udiv cell_lin_idx (umul gy gx);
    let cz := to_int qz in
    qy ← udiv (usub cell_lin_idx (umul (umul (to_uint cz) gy) gx)) gx;
    let cy := to_int qy in
    let cx := to_int (usub (usub cell_lin_idx
                                 (umul (umul (to_uint cz) gy) gx))
                           (umul (to_uint cy) gx)) in
    Some (make_vec3 cx cy cz).

  (** [calcGlobalDeviceIndex(float4 pos)]. *)
Definition calcGlobalDeviceIndex (pos : vec4 float) : option Z :=
    if (devices gd =? 1) && (mpi_nodes gd =? 1) then Some 0
    else
      cellCoords ← calcGridPosHost3 (x4 pos) (y4 pos) (z4 pos);
      let linearizedCellIdx := calcGridHashHost cellCoords in
      map ← s_hDeviceMap gd;
      map !! Z.to_nat linearizedCellIdx.

End Grid.

(** ** Buffers ([buffer.h]) *)

(** A raw pointer is an address; [NULL] is the address 0. *)
Definition pointer : Type := Z.
Definition NULL : pointer := 0.

(** How a call that changes a state of type [St] ends: it returns, it
    throws a [runtime_error] with a message, or it has undefined
    behaviour.  A thrown exception leaves the state it was thrown in. *)
Inductive outcome (St A : Type) : Type :=
  | Returns (a : A) (s : St)
  | Throws (msg : string) (s : St)
  | Faults.
Arguments Returns {St A} _ _.
Arguments Throws {St A} _ _.
Arguments Faults {St A}.

(** The members of a [GenericBuffer<T, N>]: the array [T *m_bufs[N]] and
    [m_init]; [element_size] stands for [sizeof(T)].  The template
    argument [N] is the length of [m_bufs]. *)
Record GenericBuffer : Type := mkGenericBuffer {
  element_size : Z;
  m_init : Z;
  m_bufs : list pointer
}.

Definition array_count (b : GenericBuffer) : Z := Z.of_nat (length (m_bufs b)).

(** An object behind an [AbstractBuffer*], by dynamic type.  A plain
    [AbstractBuffer] can only be built by the default constructor, so its
    [m_ptr] is null; in a [GenericBuffer] the base pointer aliases
    [m_bufs].  The type, buffer count and name of a [Buffer<Key>] come
    from [BufferTraits<Key>] in [buffer_traits.h], which is not part of
    the sources at hand; they are given when the object is built. *)
Inductive buffer_object : Type :=
  | AbstractBuffer_object
  | GenericBuffer_object (b : GenericBuffer)
  | Buffer_object (Key : Z) (name : string) (b : GenericBuffer).

(** [GenericBuffer(int _init = 0)]: every array pointer is null. *)
Definition GenericBuffer_ctor (sizeof_T : Z) (N : nat) (_init : Z)
  : GenericBuffer :=
  mkGenericBuffer sizeof_T _init (replicate N NULL).

(** [Buffer<Key>(int _init = 0)]. *)
Definition Buffer_ctor (Key : Z) (name : string) (sizeof_T : Z) (nbufs : nat)
  (_init : Z) : buffer_object :=
  Buffer_object Key name (GenericBuffer_ctor sizeof_T nbufs _init).

(** The storage part of an object, if it has one. *)
Definition storage (o : buffer_object) : option GenericBuffer :=
  match o with
  | AbstractBuffer_object => None
  | GenericBuffer_object b | Buffer_object _ _ b => Some b
  end.

(** [get_element_size] and [get_array_count], virtual. *)
Definition get_element_size (o : buffer_object) : Z :=
  match o with
  | AbstractBuffer_object => 0
  | GenericBuffer_object b | Buffer_object _ _ b => element_size b
  end.

Definition get_array_count (o : buffer_object) : Z :=
  match o with
  | AbstractBuffer_object => 0
  | GenericBuffer_object b | Buffer_object _ _ b => array_count b
  end.

(** [GenericBuffer::get_buffer(uint idx)].  The test [idx >= N] compares
    in [unsigned int]; a read of [m_bufs] outside the array would be
    undefined and is the absence of a result. *)
Definition GenericBuffer_get_buffer (b : GenericBuffer) (idx : Z)
  : option pointer :=
  if to_uint (array_count b) <=? idx then Some NULL
  else m_bufs b !! Z.to_nat idx.

(** [get_buffer], virtual: [AbstractBuffer::get_buffer] returns
    [m_ptr ? m_ptr[idx] : NULL] with [m_ptr] null. *)
Definition get_buffer (o : buffer_object) (idx : Z) : option pointer :=
  match o with
  | AbstractBuffer_object => Some NULL
  | GenericBuffer_object b | Buffer_object _ _ b =>
      GenericBuffer_get_buffer b idx
  end.

(** [size_t], 64 bits wide. *)
Definition to_size_t (v : Z) : Z := v mod 2 ^ 64.
Definition is_size_t (v : Z) : Prop := 0 <= v < 2 ^ 64.

(** [GenericBuffer::get_offset_buffer(uint idx, size_t offset)].  Adding
    [offset] to a [T*] advances by [sizeof(T)] per element and is defined
    only up to one past the end of the array the pointer refers to; past
    it the addition is undefined and is the absence of a result.  The
    arrays are allocated by subclasses that are not among the sources;
    [elems] is the number of elements they gave each array. *)
Definition GenericBuffer_get_offset_buffer (elems : Z) (b : GenericBuffer)
  (idx offset : Z) : option pointer :=
  if to_uint (array_count b) <=? idx then Some NULL
  else
    p ← m_bufs b !! Z.to_nat idx;
    if p =? NULL then Some NULL
    else if to_size_t offset <=? elems
         then Some (p + to_size_t offset * element_size b)
         else None.

(** The arrays of the buffer lie inside the 64-bit address space: each
    non-null pointer is the address of [elems] elements of
    [element_size] bytes. *)
Definition arrays_in_memory (elems : Z) (b : GenericBuffer) : Prop :=
  0 <= elems /\ 0 < element_size b /\
  Forall (fun p => p = NULL \/
                   (0 < p /\ p + elems * element_size b < 2 ^ 64))
         (m_bufs b).

(** ** BufferList

    A [BufferList] is a [std::map<flag_t, AbstractBuffer*>]; the objects
    its pointers refer to live in a heap. *)

Abbreviation heap := (gmap Z buffer_object).
Abbreviation BufferList := (gmap Z pointer).

(** The object a buffer pointer refers to; dereferencing a null or a
    dangling pointer is undefined. *)
Definition deref (h : heap) (p : pointer)
  : option buffer_object :=
  if p =? NULL then None else h !! p.

(** [getBuffer<Key>()]. *)
Definition getBuffer (l : BufferList) (Key : Z) : pointer :=
  match l !! Key with
  | Some p => p
  | None => NULL
  end.

(** [getBufferData<Key>(uint num = 0)]. *)
Definition getBufferData (h : heap) (l : BufferList)
  (Key : Z) (num : Z) : option pointer :=
  match l !! Key with
  | Some p => o ← deref h p; get_buffer o num
  | None => Some NULL
  end.

(** [operator[](const flag_t& Key)]. *)
Definition BufferList_at (l : BufferList) (Key : Z) : pointer :=
  match l !! Key with
  | Some p => p
  | None => NULL
  end.

(** [operator<< (Buffer<Key> *buf)]. *)
Definition BufferList_insert (Key : Z) (buf : pointer) (l : BufferList)
  : outcome (BufferList) unit :=
  match l !! Key with
  | Some _ =>
      Throws "trying to add a buffer for an already-available key!" l
  | None => Returns tt (<[Key := buf]> l)
  end.

(** [delete p]: nothing for a null pointer, the end of the object for a
    live one, undefined for any other pointer. *)
Definition delete_object (h : heap) (p : pointer)
  : option (heap) :=
  if p =? NULL then Some h
  else match h !! p with
       | Some _ => Some (delete p h)
       | None => None
       end.

(** The loop of [clear] over the mapped pointers, first to last. *)
Fixpoint delete_each (ps : list pointer) (h : heap)
  : option (heap) :=
  match ps with
  | [] => Some h
  | p :: rest =>
      match delete_object h p with
      | Some h' => delete_each rest h'
      | None => None
      end
  end.

(** Iteration over a [std::map] visits the entries by increasing key. *)
Definition key_le (a b : Z * pointer) : Prop := a.1 <= b.1.

#[local] Instance key_le_dec : RelDecision key_le :=
  fun a b => decide (a.1 <= b.1).

Definition entries (l : BufferList) : list (Z * pointer) :=
  merge_sort key_le (map_to_list l).

(** [BufferList::clear()], on the heap and the list. *)
Definition clear (s : heap * BufferList)
  : outcome (heap * BufferList) unit :=
  match delete_each (entries s.2).*2 s.1 with
  | Some h' => Returns tt (h', ∅)
  | None => Faults
  end.

(** ** Properties of states

    Predicates in which the theorems below are stated. *)

(** The generation invariant of one quantity. *)
Definition generation_ok (gd : GlobalData) (q : Quantity) : Prop :=
  readIndex gd q <> writeIndex gd q /\
  (readIndex gd q = 0 \/ readIndex gd q = 1) /\
  (writeIndex gd q = 0 \/ writeIndex gd q = 1).

(** Modelled from the spec: the code that fills in [gridSize] and
    [nGridCells] is not in [GlobalData.h].  The data model of the
    specification derives [nGridCells] as the product of the three
    components of [gridSize]; all four are [unsigned int] fields. *)
Definition grid_wf (gd : GlobalData) : Prop :=
  is_uint3 (gridSize gd) /\
  is_uint (nGridCells gd) /\
  nGridCells gd = x_ (gridSize gd) * y_ (gridSize gd) * z_ (gridSize gd).

(** The exact quotients and remainders that both inversion helpers
    compute when nothing overflows: [z] first, then [y], then [x]. *)
Definition unlinearize (g : vec3 Z) (h : Z) : vec3 Z :=
  let qz := h / (x_ g * y_ g) in
  let r := h - qz * (x_ g * y_ g) in
  let qy := r / x_ g in
  make_vec3 (r - qy * x_ g) qy qz.

(** Every cell coordinate of the grid fits the [int] fields of an [int3]. *)
Definition axes_fit_int (gd : GlobalData) : Prop :=
  x_ (gridSize gd) <= 2147483648 /\
  y_ (gridSize gd) <= 2147483648 /\
  z_ (gridSize gd) <= 2147483648.

(** The upper bound [gridSize.axis - 1] reaches [min] as it is: [min]
    compares in [unsigned int], or no axis has more than [2^31] cells and
    the bound fits [int]. *)
Definition upper_clamp_ok (ov : min_overload) (gd : GlobalData) : Prop :=
  ov = min_int_uint \/ axes_fit_int gd.

(** Every value of the [int] counters of the loops over the grid, the
    last increment included, fits [int]. *)
Definition axes_fit_counter (gd : GlobalData) : Prop :=
  x_ (gridSize gd) <= 2147483647 /\
  y_ (gridSize gd) <= 2147483647 /\
  z_ (gridSize gd) <= 2147483647.

(** The cell [p] lies inside the grid. *)
Definition in_grid (gd : GlobalData) (p : vec3 Z) : Prop :=
  0 <= x_ p < x_ (gridSize gd) /\
  0 <= y_ p < y_ (gridSize gd) /\
  0 <= z_ p < z_ (gridSize gd).

(** The quantities whose indices [swapDeviceBuffers] has a statement for. *)
Definition swapped_by_swapDeviceBuffers (q : Quantity) : bool :=
  match q with
  | POS | VEL | INFO => true
  | _ => false
  end.

(** No array of the buffer has been allocated. *)
Definition unallocated (b : GenericBuffer) : Prop :=
  Forall (fun p => p = NULL) (m_bufs b).

(** The list owns its buffers: every pointer it holds is null or refers
    to a live object, and no object is held under two keys. *)
Definition owns (h : heap) (l : BufferList) : Prop :=
  (forall k p, l !! k = Some p -> p <> NULL -> is_Some (h !! p)) /\
  (forall k1 k2 p, l !! k1 = Some p -> l !! k2 = Some p -> p <> NULL ->
     k1 = k2).

(** ** Sample states

    Concrete states on which the theorems are exercised. *)

(** Storage filled with zero bytes. *)
Definition zero_storage : GlobalData :=
  let f0 := make_vec3 (S754_zero false) (S754_zero false) (S754_zero false) in
  mkGlobalData 0 0 0 0 0 f0 f0 f0 (make_vec3 0 0 0) 0 None
               0 0 0 0 0 0 0 0 0 0 0 0 0 0 0 0 0 0 0 0 0 0
               0 0 false false 0 IDLE 0 false false.

(** What the initialisation outside [GlobalData.h] stores once the domain
    is known: device counts, grid geometry and the device map. *)
Definition set_domain (devs nodes : Z) (origin cell : vec3 float)
  (size : vec3 Z) (cells : Z) (map : option (list Z)) (gd : GlobalData)
  : GlobalData :=
  {| devices := devs;
     mpi_nodes := nodes;
     mpi_rank := mpi_rank gd;
     totDevices := totDevices gd;
     totParticles := totParticles gd;
     worldSize := worldSize gd;
     worldOrigin := origin;
     cellSize := cell;
     gridSize := size;
     nGridCells := cells;
     s_hDeviceMap := map;
     currentPosRead := currentPosRead gd;
     currentPosWrite := currentPosWrite gd;
     currentVelRead := currentVelRead gd;
     currentVelWrite := currentVelWrite gd;
     currentInfoRead := currentInfoRead gd;
     currentInfoWrite := currentInfoWrite gd;
     currentBoundElementRead := currentBoundElementRead gd;
     currentBoundElementWrite := currentBoundElementWrite gd;
     currentGradGammaRead := currentGradGammaRead gd;
     currentGradGammaWrite := currentGradGammaWrite gd;
     currentVerticesRead := currentVerticesRead gd;
     currentVerticesWrite := currentVerticesWrite gd;
     currentPressureRead := currentPressureRead gd;
     currentPressureWrite := currentPressureWrite gd;
     currentTKERead := currentTKERead gd;
     currentTKEWrite := currentTKEWrite gd;
     currentEpsRead := currentEpsRead gd;
     currentEpsWrite := currentEpsWrite gd;
     currentTurbViscRead := currentTurbViscRead gd;
     currentTurbViscWrite := currentTurbViscWrite gd;
     currentStrainRateRead := currentStrainRateRead gd;
     currentStrainRateWrite := currentStrainRateWrite gd;
     mbDataSize := mbDataSize gd;
     numPlanes := numPlanes gd;
     keep_going := keep_going gd;
     quit_request := quit_request gd;
     iterations := iterations gd;
     nextCommand := nextCommand gd;
     commandFlags := commandFlags gd;
     only_internal := only_internal gd;
     nosave := nosave gd |}.

Definition float3_of_Z (a b c : Z) : vec3 float :=
  make_vec3 (of_Z a) (of_Z b) (of_Z c).

(** The position 3.5 is the float [7 * 2^-1]. *)
Definition f3_5 : float := scaled 7 (-1).

(** What the initialisation outside [GlobalData.h] has to store in the
    generation indices: every read index 0, every write index 1. *)
Definition init_generations (gd : GlobalData) : GlobalData :=
  {| devices := devices gd;
     mpi_nodes := mpi_nodes gd;
     mpi_rank := mpi_rank gd;
     totDevices := totDevices gd;
     totParticles := totParticles gd;
     worldSize := worldSize gd;
     worldOrigin := worldOrigin gd;
     cellSize := cellSize gd;
     gridSize := gridSize gd;
     nGridCells := nGridCells gd;
     s_hDeviceMap := s_hDeviceMap gd;
     currentPosRead := 0;
     currentPosWrite := 1;
     currentVelRead := 0;
     currentVelWrite := 1;
     currentInfoRead := 0;
     currentInfoWrite := 1;
     currentBoundElementRead := 0;
     currentBoundElementWrite := 1;
     currentGradGammaRead := 0;
     currentGradGammaWrite := 1;
     currentVerticesRead := 0;
     currentVerticesWrite := 1;
     currentPressureRead := 0;
     currentPressureWrite := 1;
     currentTKERead := 0;
     currentTKEWrite := 1;
     currentEpsRead := 0;
     currentEpsWrite := 1;
     currentTurbViscRead := 0;
     currentTurbViscWrite := 1;
     currentStrainRateRead := 0;
     currentStrainRateWrite := 1;
     mbDataSize := mbDataSize gd;
     numPlanes := numPlanes gd;
     keep_going := keep_going gd;
     quit_request := quit_request gd;
     iterations := iterations gd;
     nextCommand := nextCommand gd;
     commandFlags := commandFlags gd;
     only_internal := only_internal gd;
     nosave := nosave gd |}.

(** [define_buffers.h] is not among the sources.  For the examples, a
    layout of the keys in the manner [GlobalData.h] describes: one bit per
    buffer, growing from [FIRST_DEFINED_BUFFER]. *)
Definition sample_BUFFER (q : Quantity) : Z :=
  Z.shiftl FIRST_DEFINED_BUFFER
    match q with
    | POS => 0 | VEL => 1 | INFO => 2 | BOUNDELEMENTS => 3
    | GRADGAMMA => 4 | VERTICES => 5 | PRESSURE => 6 | TKE => 7
    | EPSILON => 8 | TURBVISC => 9 | STRAIN_RATE => 10
    end.

Definition started : GlobalData :=
  init_generations (GlobalData_ctor zero_storage).

(** The 4 x 4 x 4 grid of unit cells at the origin, two devices, with a
    device map that gives the lower half of the cells to device 0. *)
Definition grid444 : GlobalData :=
  set_domain 2 1 (float3_of_Z 0 0 0) (float3_of_Z 1 1 1)
             (make_vec3 4 4 4) 64
             (Some (repeat 0 32 ++ repeat 1 32))
             (GlobalData_ctor zero_storage).

(** A one-dimensional grid with more than [2^31] cells along [z]. *)
Definition grid_long_z : GlobalData :=
  set_domain 1 1 (float3_of_Z 0 0 0) (float3_of_Z 1 1 1)
             (make_vec3 1 1 4294967295) 4294967295 None
             (GlobalData_ctor zero_storage).

(** Keys and objects for the examples: POS and VEL hold [float4]
    elements (16 bytes) in two arrays each. *)
Definition KEY_POS : Z := sample_BUFFER POS.
Definition KEY_VEL : Z := sample_BUFFER VEL.

Definition sample_heap : heap :=
  <[4096 := Buffer_ctor KEY_POS "Position" 16 2 0]>
    (<[8192 := Buffer_ctor KEY_VEL "Velocity" 16 2 0]> ∅).

Definition sample_list : BufferList :=
  <[KEY_POS := 4096]> (<[KEY_VEL := 8192]> ∅).

Ltac by_evaluation :=
  vm_compute; repeat split; (reflexivity || discriminate).

(** ** Further member functions of [GlobalData] *)

(** *** Device identifiers *)

(** Conversion to [unsigned char]. *)
Definition to_uchar (v : Z) : Z := v mod 256.
Definition is_uchar (v : Z) : Prop := 0 <= v < 256.

Section DeviceIds.

(** [DEVICE_BITS] and [DEVICE_BITS_MASK] come from [multi_gpu_defines.h],
    which is not among the sources; they are parameters. *)
Variable DEVICE_BITS : Z.
Variable DEVICE_BITS_MASK : Z.

(** [RANK], [DEVICE], [GLOBAL_DEVICE_ID]: the [uchar] operands are
    promoted to [int], the result is converted back to [uchar]. *)
Definition RANK (globalDevId : Z) : Z :=
  to_uchar (Z.shiftr globalDevId DEVICE_BITS).

Definition DEVICE (globalDevId : Z) : Z :=
  to_uchar (Z.land globalDevId DEVICE_BITS_MASK).

Definition GLOBAL_DEVICE_ID (nodeRank localDevId : Z) : Z :=
  to_uchar (Z.lor (Z.shiftl nodeRank DEVICE_BITS)
                  (Z.land localDevId DEVICE_BITS_MASK)).

(** [GLOBAL_DEVICE_NUM]: [devices * RANK + DEVICE] in [unsigned int],
    returned as [uchar]. *)
Definition GLOBAL_DEVICE_NUM (gd : GlobalData) (globalDevId : Z) : Z :=
  to_uchar (uadd (umul (devices gd) (RANK globalDevId)) (DEVICE globalDevId)).

(** The body of the loop of [convertDeviceMap] for [count] cells from
    cell [n] on.  Reading the map outside its array and dividing by zero
    are undefined. *)
Fixpoint convertDeviceMap_from (count : nat) (n : Z) (devs : Z)
  (map : list Z) : option (list Z) :=
  match count with
  | O => Some map
  | S count' =>
      v ← map !! Z.to_nat n;
      q ← udiv v devs;
      let _rank := to_uchar q in
      let _dev := to_uchar (v mod devs) in
      convertDeviceMap_from count' (n + 1) devs
        (<[Z.to_nat n := GLOBAL_DEVICE_ID _rank _dev]> map)
  end.

(** [convertDeviceMap]: the loop runs over the cells [0 .. nGridCells-1];
    with a null map its first read is undefined. *)
Definition convertDeviceMap (gd : GlobalData) : option GlobalData :=
  match s_hDeviceMap gd with
  | Some map =>
      map' ← convertDeviceMap_from (Z.to_nat (nGridCells gd)) 0
                                   (devices gd) map;
      Some (set_domain (devices gd) (mpi_nodes gd) (worldOrigin gd)
                       (cellSize gd) (gridSize gd) (nGridCells gd)
                       (Some map') gd)
  | None =>
      match Z.to_nat (nGridCells gd) with
      | O => Some gd
      | S _ => None
      end
  end.

End DeviceIds.

(** Modelled from the spec: the values of [DEVICE_BITS] and
    [DEVICE_BITS_MASK] are not in the sources at hand.  A global device
    id is one byte, [rank << DEVICE_BITS | local device index], and the
    mask keeps the device bits: the low [DEVICE_BITS] bits. *)
Definition device_bits_wf (bits mask : Z) : Prop :=
  0 <= bits <= 8 /\ mask = 2 ^ bits - 1.

(** *** Printing numbers *)

(** What [operator<<] writes for a non-negative integer: its decimal
    digits. *)
Definition dec (v : Z) : string :=
  NilZero.string_of_uint (N.to_uint (Z.to_N v)).

(** [to_string(uint number)]. *)
Definition to_string (number : Z) : string := dec number.

(** [rankString]: [mpi_rank] is an [int] and is converted to the [uint]
    parameter of [to_string]. *)
Definition rankString (gd : GlobalData) : string :=
  (to_string (to_uint (mpi_rank gd)) ++ "." ++ to_string (mpi_nodes gd))%string.

Definition LONG_MIN : Z := - 2 ^ 63.
Definition LONG_MAX : Z := 2 ^ 63 - 1.
Definition is_long (v : Z) : Prop := LONG_MIN <= v <= LONG_MAX.

(** The zero padding [addSeparators] writes before a group. *)
Definition padding (v : Z) : string :=
  ((if (v <=? 99)%Z then "0" else "")
   ++ (if (v <=? 9)%Z then "0" else ""))%string.

(** The [while] loop of [addSeparators], from the state (stream, number,
    magnitude, padding_needed); [long] has 64 bits.  The loop gives the
    state in which it exits.  [magnitude] is 0 from its fifth value on
    and the division is then undefined, so five rounds decide every
    run. *)
Fixpoint addSeparators_loop (rounds : nat) (oss : string)
  (number magnitude : Z) (padding_needed : bool)
  : option (string * Z * bool) :=
  if number <? 1000 then Some (oss, number, padding_needed)
  else
    match rounds with
    | O => None
    | S rounds' =>
        if magnitude <=? number then
          if magnitude =? 0 then None
          else
            let div := number / magnitude in
            let mod_ := number mod magnitude in
            let oss1 :=
              if padding_needed then (oss ++ padding div)%string else oss in
            addSeparators_loop rounds' (oss1 ++ dec div ++ ",")%string
                               mod_ (magnitude / 1000) true
        else
          addSeparators_loop rounds' oss number (magnitude / 1000)
                             padding_needed
    end.

(** [addSeparators(long int number)].  Negating [LONG_MIN] overflows. *)
Definition addSeparators (number : Z) : option string :=
  if number =? LONG_MIN then None
  else
    let oss := if number <? 0 then "-"%string else ""%string in
    let number := if number <? 0 then number * -1 else number in
    match addSeparators_loop 5 oss number 1000000000 false with
    | Some (oss, number, padding_needed) =>
        Some ((if padding_needed then oss ++ padding number else oss)
              ++ dec number)%string
    | None => None
    end.

(** The text [addSeparators] is meant to produce for a non-negative
    number: groups of three digits from the right. *)
Fixpoint grouped (groups : nat) (v : Z) : string :=
  match groups with
  | O => dec v
  | S groups' =>
      if v <? 1000 then dec v
      else (grouped groups' (v / 1000) ++ ","
            ++ padding (v mod 1000) ++ dec (v mod 1000))%string
  end.

(** A 2 x 2 x 2 grid on two nodes with two devices each; the device map
    holds the linear device numbers 0 .. 3 before conversion. *)
Definition grid222 : GlobalData :=
  set_domain 2 2 (float3_of_Z 0 0 0) (float3_of_Z 1 1 1)
             (make_vec3 2 2 2) 8
             (Some [0; 1; 2; 3; 3; 2; 1; 0])
             (GlobalData_ctor zero_storage).

(** One entry of the device map after [convertDeviceMap]. *)
Definition converted_entry (bits mask devs v : Z) : Z :=
  GLOBAL_DEVICE_ID bits mask (to_uchar (v / devs)) (to_uchar (v mod devs)).

(** *** Writing the device map *)

Definition newline : string := String (Ascii.ascii_of_nat 10) EmptyString.

(** A line of the table: the five numbers that
    [fprintf(fid, "%u,%u,%u,%u,%u\n", ...)] prints. *)
Record csv_row : Type := mk_csv_row {
  row_x : Z;
  row_y : Z;
  row_z : Z;
  row_lin : Z;
  row_value : Z
}.

Definition format_row (r : csv_row) : string :=
  (dec (row_x r) ++ "," ++ dec (row_y r) ++ "," ++ dec (row_z r) ++ ","
   ++ dec (row_lin r) ++ "," ++ dec (row_value r) ++ newline)%string.

Definition csv_header : string :=
  ("X,Y,Z,LINEARIZED,VALUE" ++ newline)%string.

(** The rows a loop body produces over the values [xs] of its counter,
    in order; a fault in one round is a fault of the loop. *)
Fixpoint for_each (xs : list Z) (body : Z -> option (list csv_row))
  : option (list csv_row) :=
  match xs with
  | [] => Some []
  | i :: rest =>
      match body i with
      | Some rows =>
          match for_each rest body with
          | Some more => Some (rows ++ more)
          | None => None
          end
      | None => None
      end
  end.

(** [for (int i = 0; i < bound; i++)] with an [unsigned int] bound: the
    test compares in [unsigned int].  With a bound above [INT_MAX] the
    counter reaches [INT_MAX] and is incremented once more, which is
    undefined. *)
Definition for_int (bound : Z) (body : Z -> option (list csv_row))
  : option (list csv_row) :=
  if 2147483647 <? bound then None else for_each (seqZ 0 bound) body.

(** The three nested loops of [saveDeviceMapToFile] and
    [saveCompactDeviceMapToFile], [x] outermost; [value] reads the entry
    to print for a hash. *)
Definition tableRows (ov : min_overload) (value : Z -> option Z)
  (gd : GlobalData) : option (list csv_row) :=
  for_int (x_ (gridSize gd)) (fun ix =>
    for_int (y_ (gridSize gd)) (fun iy =>
      for_int (z_ (gridSize gd)) (fun iz =>
        let cell_lin_idx := calcGridHashHost3 ov gd ix iy iz in
        v ← value cell_lin_idx;
        Some [mk_csv_row ix iy iz cell_lin_idx v]))).

Definition tableText (rows : list csv_row) : string :=
  (csv_header ++ fold_right String.append "" (format_row <$> rows))%string.

(** [saveDeviceMapToFile]: the text written to the file.  [fid] is what
    [fopen] returned; the function does not test it, and printing to a
    null stream is undefined.  The file name, built from the [Problem]
    (not among the sources), and the message on the standard output are
    left out. *)
Definition saveDeviceMapToFile (ov : min_overload) (fid : pointer)
  (gd : GlobalData) : option string :=
  if fid =? NULL then None
  else
    rows ← tableRows ov (fun h => map ← s_hDeviceMap gd; map !! Z.to_nat h)
                     gd;
    Some (tableText rows).

(** [saveCompactDeviceMapToFile]: as above, printing the two top bits of
    the entries of the [uint] array [compactDeviceMap]. *)
Definition saveCompactDeviceMapToFile (ov : min_overload) (fid : pointer)
  (compactDeviceMap : list Z) (gd : GlobalData) : option string :=
  if fid =? NULL then None
  else
    rows ← tableRows ov (fun h => v ← compactDeviceMap !! Z.to_nat h;
                                  Some (Z.shiftr v 30)) gd;
    Some (tableText rows).

(** The rows of the table in loop order, for a total [value]. *)
Definition rowsInOrder (ov : min_overload) (value : Z -> Z)
  (gd : GlobalData) : list csv_row :=
  ix ← seqZ 0 (x_ (gridSize gd));
  iy ← seqZ 0 (y_ (gridSize gd));
  iz ← seqZ 0 (z_ (gridSize gd));
  [mk_csv_row ix iy iz (calcGridHashHost3 ov gd ix iy iz)
              (value (calcGridHashHost3 ov gd ix iy iz))].

(** The 2 x 2 x 2 grid before a device map has been allocated. *)
Definition grid222_no_map : GlobalData :=
  set_domain 2 2 (float3_of_Z 0 0 0) (float3_of_Z 1 1 1)
             (make_vec3 2 2 2) 8 None (GlobalData_ctor zero_storage).

(** * Properties *)

(** ** Machine-integer facts *)

Lemma UINT_MOD_val : UINT_MOD = 4294967296.
Proof. reflexivity. Qed.

Lemma to_uint_small v : 0 <= v < 4294967296 -> to_uint v = v.
Proof.
  intros H. unfold to_uint. rewrite UINT_MOD_val. now apply Z.mod_small.
Qed.

Lemma to_uint_range v : is_uint (to_uint v).
Proof.
  unfold is_uint, to_uint. rewrite UINT_MOD_val.
  apply Z.mod_pos_bound. lia.
Qed.

Lemma to_int_small v : -2147483648 <= v <= 2147483647 -> to_int v = v.
Proof.
  intros H. unfold to_int. rewrite UINT_MOD_val.
  change (2 ^ 31) with 2147483648.
  rewrite Z.mod_small by lia. lia.
Qed.

Lemma to_int_range v : is_int (to_int v).
Proof.
  unfold is_int, to_int, INT_MIN, INT_MAX. rewrite UINT_MOD_val.
  change (2 ^ 31) with 2147483648.
  pose proof (Z.mod_pos_bound (v + 2147483648) 4294967296). lia.
Qed.

(** Converting to [int] and back to [unsigned int] loses nothing. *)
Lemma to_uint_to_int v : to_uint (to_int v) = to_uint v.
Proof.
  unfold to_uint, to_int. rewrite UINT_MOD_val.
  change (2 ^ 31) with 2147483648.
  rewrite Zminus_mod_idemp_l.
  f_equal. lia.
Qed.

Lemma is_uint_bounds v : is_uint v -> 0 <= v < 4294967296.
Proof. unfold is_uint. now rewrite UINT_MOD_val. Qed.

Lemma is_int_bounds v : is_int v -> -2147483648 <= v <= 2147483647.
Proof.
  unfold is_int, INT_MIN, INT_MAX. change (2 ^ 31) with 2147483648. lia.
Qed.

(** ** Clamping and linearisation *)

(** One axis of [clampGridPos] is the mathematical clamp into
    [[0, g - 1]] as soon as the axis has at least one cell and the bound
    [g - 1] reaches [min] as it is: [min] compares in [unsigned int], or
    the bound fits [int]. *)
Lemma clamp_axis ov c g :
  is_int c -> is_uint g -> 1 <= g ->
  ov = min_int_uint \/ g <= 2147483648 ->
  to_int (min_mixed ov (max_ii 0 c) (usub g 1)) = Z.min (Z.max 0 c) (g - 1).
Proof.
  intros Hc%is_int_bounds Hg%is_uint_bounds Hg1 Hov.
  unfold usub. rewrite (to_uint_small (g - 1)) by lia.
  destruct ov; cbn [min_mixed]; unfold min_iu, min_ii, max_ii.
  - rewrite (to_uint_small (Z.max 0 c)) by lia.
    apply to_int_small. lia.
  - destruct Hov as [Hov|Hfit]; [discriminate|].
    rewrite (to_int_small (g - 1)) by lia.
    apply to_int_small. lia.
Qed.

Lemma clamp_axis_id ov c g :
  is_uint g -> 0 <= c < g -> c <= 2147483647 ->
  ov = min_int_uint \/ g <= 2147483648 ->
  to_int (min_mixed ov (max_ii 0 c) (usub g 1)) = c.
Proof.
  intros Hg Hc Hi Hov.
  rewrite clamp_axis; [lia | | assumption | lia | assumption].
  unfold is_int, INT_MIN, INT_MAX. change (2 ^ 31) with 2147483648. lia.
Qed.

(** Whatever [min] is selected, the clamped coordinate, read as the
    [unsigned int] that enters the hash, is at most [g - 1]. *)
Lemma clamp_axis_unsigned ov c g :
  is_int c -> is_uint g -> 1 <= g ->
  0 <= to_uint (to_int (min_mixed ov (max_ii 0 c) (usub g 1))) <= g - 1.
Proof.
  intros Hc Hg Hg1.
  destruct (Z.le_gt_cases g 2147483648) as [Hfit|Hlong].
  - rewrite clamp_axis by (assumption || (right; assumption)).
    apply is_int_bounds in Hc. apply is_uint_bounds in Hg.
    rewrite to_uint_small by lia. lia.
  - destruct ov.
    + rewrite clamp_axis by (assumption || (left; reflexivity)).
      apply is_int_bounds in Hc. apply is_uint_bounds in Hg.
      rewrite to_uint_small by lia. lia.
    + apply is_int_bounds in Hc. apply is_uint_bounds in Hg.
      rewrite to_uint_to_int. cbn [min_mixed]. unfold min_ii, max_ii, usub.
      rewrite (to_uint_small (g - 1)) by lia.
      assert (Hneg : to_int (g - 1) = g - 1 - 4294967296).
      { unfold to_int. rewrite UINT_MOD_val.
        change (2 ^ 31) with 2147483648.
        replace (g - 1 + 2147483648)
          with (g - 1 - 2147483648 + 1 * 4294967296) by lia.
        rewrite Z.mod_add by lia. rewrite Z.mod_small by lia. lia. }
      rewrite Hneg, Z.min_r by lia.
      unfold to_uint. rewrite UINT_MOD_val.
      replace (g - 1 - 4294967296) with (g - 1 + (-1) * 4294967296) by lia.
      rewrite Z.mod_add by lia. rewrite Z.mod_small by lia. lia.
Qed.

(** [linearize] reads its argument as three [unsigned int]. *)
Lemma linearize_to_uint gd c :
  linearize gd c
  = linearize gd (make_vec3 (to_uint (x_ c)) (to_uint (y_ c))
                            (to_uint (z_ c))).
Proof.
  unfold linearize. cbn [x_ y_ z_].
  assert (Hidem : forall v, to_uint (to_uint v) = to_uint v).
  { intros v. unfold to_uint. rewrite UINT_MOD_val. apply Z.mod_mod. lia. }
  now rewrite !Hidem.
Qed.

(** Without overflow the [unsigned int] expression of [linearize] is the
    exact row-major index. *)
Lemma linearize_exact gd c :
  grid_wf gd ->
  0 <= x_ c < x_ (gridSize gd) ->
  0 <= y_ c < y_ (gridSize gd) ->
  0 <= z_ c < z_ (gridSize gd) ->
  linearize gd c
  = (z_ c * y_ (gridSize gd) + y_ c) * x_ (gridSize gd) + x_ c
  /\ 0 <= linearize gd c < nGridCells gd.
Proof.
  intros (Hg & Hn%is_uint_bounds & Hprod) Hx Hy Hz.
  unfold linearize, uadd, umul. rewrite Hprod in *. clear Hg.
  destruct c as [cx cy cz]. destruct (gridSize gd) as [gx gy gz].
  cbn [x_ y_ z_] in *.
  assert (Hzy : 0 <= cz * gy + cy < gy * gz) by nia.
  assert (Hlin : 0 <= (cz * gy + cy) * gx + cx < gx * gy * gz) by nia.
  rewrite (to_uint_small cz) by nia.
  rewrite (to_uint_small cy) by nia.
  rewrite (to_uint_small cx) by nia.
  rewrite (to_uint_small (cz * gy)) by nia.
  rewrite (to_uint_small (cz * gy * gx)) by nia.
  rewrite (to_uint_small (cy * gx)) by nia.
  rewrite (to_uint_small (cz * gy * gx + cy * gx)) by nia.
  rewrite (to_uint_small (cz * gy * gx + cy * gx + cx)) by nia.
  nia.
Qed.

(** ** Inverting the linear index *)

Lemma unlinearize_bounds g h :
  0 < x_ g -> 0 < y_ g -> 0 <= h < x_ g * y_ g * z_ g ->
  let c := unlinearize g h in
  0 <= x_ c < x_ g /\ 0 <= y_ c < y_ g /\ 0 <= z_ c < z_ g /\
  h = (z_ c * y_ g + y_ c) * x_ g + x_ c.
Proof.
  destruct g as [gx gy gz]. unfold unlinearize. cbn [x_ y_ z_].
  intros Hx Hy Hh.
  assert (Hxy : 0 < gx * gy) by nia.
  pose proof (Z.div_mod h (gx * gy) ltac:(lia)) as Hdm.
  pose proof (Z.mod_pos_bound h (gx * gy) Hxy) as Hmb.
  set (qz := h / (gx * gy)) in *.
  assert (Hr : h - qz * (gx * gy) = h mod (gx * gy)) by lia.
  rewrite Hr. set (r := h mod (gx * gy)) in *.
  pose proof (Z.div_mod r gx ltac:(lia)) as Hdm'.
  pose proof (Z.mod_pos_bound r gx Hx) as Hmb'.
  set (qy := r / gx) in *.
  assert (Hqz : 0 <= qz < gz) by nia.
  assert (Hqy : 0 <= qy < gy) by nia.
  repeat split; try lia; nia.
Qed.

(** A linear index is recovered from a cell inside the grid. *)
Lemma unlinearize_linear g c :
  0 <= x_ c < x_ g -> 0 <= y_ c < y_ g -> 0 <= z_ c ->
  unlinearize g ((z_ c * y_ g + y_ c) * x_ g + x_ c) = c.
Proof.
  destruct g as [gx gy gz], c as [cx cy cz]. unfold unlinearize.
  cbn [x_ y_ z_]. intros Hx Hy Hz.
  assert (Hq : ((cz * gy + cy) * gx + cx) / (gx * gy) = cz).
  { symmetry. apply (Z.div_unique _ _ _ (cy * gx + cx)); [left; nia | lia]. }
  rewrite Hq.
  assert (Hr : (cz * gy + cy) * gx + cx - cz * (gx * gy) = cy * gx + cx) by lia.
  rewrite Hr.
  assert (Hq' : (cy * gx + cx) / gx = cy).
  { symmetry. apply (Z.div_unique _ _ _ cx); [left; lia | lia]. }
  rewrite Hq'. f_equal. lia.
Qed.

Lemma grid_wf_positive gd h :
  grid_wf gd -> 0 <= h < nGridCells gd ->
  0 < x_ (gridSize gd) /\ 0 < y_ (gridSize gd) /\ 0 < z_ (gridSize gd).
Proof.
  intros ((Hx%is_uint_bounds & Hy%is_uint_bounds & Hz%is_uint_bounds)
          & _ & Hprod) Hh.
  rewrite Hprod in Hh. nia.
Qed.

(** [calcGridPosFromHash] computes [unlinearize] on every valid hash. *)
Lemma calcGridPosFromHash_exact gd h :
  grid_wf gd -> 0 <= h < nGridCells gd ->
  calcGridPosFromHash gd h = Some (unlinearize (gridSize gd) h).
Proof.
  intros Hwf Hh.
  destruct (grid_wf_positive gd h Hwf Hh) as (Hx & Hy & Hz).
  destruct Hwf as (_ & Hn%is_uint_bounds & Hprod). rewrite Hprod in *.
  pose proof (unlinearize_bounds (gridSize gd) h Hx Hy Hh) as Hb.
  unfold calcGridPosFromHash, unlinearize in *.
  destruct (gridSize gd) as [gx gy gz]. cbn [x_ y_ z_] in *.
  cbv zeta in Hb. destruct Hb as (Hbx & Hby & Hbz & Hlin).
  set (qz := h / (gx * gy)) in *.
  set (r := h - qz * (gx * gy)) in *.
  set (qy := r / gx) in *.
  assert (Hxy : 0 < gx * gy <= gx * gy * gz) by nia.
  unfold udiv, umul, usub.
  rewrite (to_uint_small (gx * gy)) by lia.
  destruct (Z.eqb_spec (gx * gy) 0) as [?|_]; [lia|]. cbn [mbind option_bind].
  fold qz.
  rewrite (to_uint_small (qz * gx)) by nia.
  rewrite (to_uint_small (qz * gx * gy)) by nia.
  replace (h - qz * gx * gy) with r by (unfold r; lia).
  assert (Hr : 0 <= r < gx * gy) by (unfold r; nia).
  rewrite (to_uint_small r) by lia.
  destruct (Z.eqb_spec gx 0) as [?|_]; [lia|]. cbn [mbind option_bind].
  fold qy.
  rewrite (to_uint_small (qy * gx)) by nia.
  rewrite (to_uint_small (h - qy * gx)) by nia.
  replace (h - qy * gx - qz * gx * gy) with (r - qy * gx) by (unfold r; lia).
  rewrite (to_uint_small (r - qy * gx)) by lia.
  reflexivity.
Qed.

(** [reverseGridHashHost] computes the same quotients and stores each of
    them in an [int]. *)
Lemma reverseGridHashHost_exact gd h :
  grid_wf gd -> 0 <= h < nGridCells gd ->
  reverseGridHashHost gd h
  = Some (make_vec3 (to_int (x_ (unlinearize (gridSize gd) h)))
                    (to_int (y_ (unlinearize (gridSize gd) h)))
                    (to_int (z_ (unlinearize (gridSize gd) h)))).
Proof.
  intros Hwf Hh.
  destruct (grid_wf_positive gd h Hwf Hh) as (Hx & Hy & Hz).
  destruct Hwf as (_ & Hn%is_uint_bounds & Hprod). rewrite Hprod in *.
  pose proof (unlinearize_bounds (gridSize gd) h Hx Hy Hh) as Hb.
  unfold reverseGridHashHost, unlinearize in *.
  destruct (gridSize gd) as [gx gy gz]. cbn [x_ y_ z_] in *.
  cbv zeta in Hb. destruct Hb as (Hbx & Hby & Hbz & Hlin).
  set (qz := h / (gx * gy)) in *.
  set (r := h - qz * (gx * gy)) in *.
  set (qy := r / gx) in *.
  assert (Hxy : 0 < gx * gy <= gx * gy * gz) by nia.
  unfold udiv, umul, usub.
  rewrite (to_uint_small (gy * gx)) by lia.
  destruct (Z.eqb_spec (gy * gx) 0) as [?|_]; [lia|]. cbn [mbind option_bind].
  replace (h / (gy * gx)) with qz by (unfold qz; f_equal; lia).
  rewrite !to_uint_to_int.
  rewrite (to_uint_small qz) by nia.
  rewrite (to_uint_small (qz * gy)) by nia.
  rewrite (to_uint_small (qz * gy * gx)) by nia.
  replace (h - qz * gy * gx) with r by (unfold r; lia).
  assert (Hr : 0 <= r < gx * gy) by (unfold r; nia).
  rewrite (to_uint_small r) by lia.
  destruct (Z.eqb_spec gx 0) as [?|_]; [lia|]. cbn [mbind option_bind].
  fold qy.
  rewrite !to_uint_to_int.
  rewrite (to_uint_small qy) by nia.
  rewrite (to_uint_small (qy * gx)) by nia.
  rewrite (to_uint_small (r - qy * gx)) by lia.
  reflexivity.
Qed.

(** ** The sample grids *)

Lemma grid444_wf : grid_wf grid444.
Proof. by_evaluation. Qed.

Lemma grid_long_z_wf : grid_wf grid_long_z.
Proof. by_evaluation. Qed.

(** ** Clamped hashing (C4) *)

Lemma clampGridPos_exact ov gd p :
  grid_wf gd -> is_int3 p ->
  1 <= x_ (gridSize gd) -> 1 <= y_ (gridSize gd) -> 1 <= z_ (gridSize gd) ->
  upper_clamp_ok ov gd ->
  clampGridPos ov gd p
  = make_vec3 (Z.min (Z.max 0 (x_ p)) (x_ (gridSize gd) - 1))
              (Z.min (Z.max 0 (y_ p)) (y_ (gridSize gd) - 1))
              (Z.min (Z.max 0 (z_ p)) (z_ (gridSize gd) - 1)).
Proof.
  intros ((Hgx & Hgy & Hgz) & _) (Hx & Hy & Hz) H1x H1y H1z Hov.
  unfold clampGridPos.
  rewrite !clamp_axis; try assumption; try reflexivity;
    (destruct Hov as [Hov|(Hfx & Hfy & Hfz)];
     [left; assumption | right; assumption]).
Qed.

(** The hash of any [int3] on a grid with at least one cell per axis,
    whichever [min] is selected. *)
Lemma calcGridHashHost_range ov gd p :
  grid_wf gd -> is_int3 p ->
  1 <= x_ (gridSize gd) -> 1 <= y_ (gridSize gd) -> 1 <= z_ (gridSize gd) ->
  0 <= calcGridHashHost ov gd p < nGridCells gd.
Proof.
  intros Hwf Hp H1x H1y H1z. unfold calcGridHashHost.
  rewrite linearize_to_uint.
  pose proof Hwf as ((Hgx & Hgy & Hgz) & _). destruct Hp as (Hx & Hy & Hz).
  pose proof (clamp_axis_unsigned ov _ _ Hx Hgx H1x).
  pose proof (clamp_axis_unsigned ov _ _ Hy Hgy H1y).
  pose proof (clamp_axis_unsigned ov _ _ Hz Hgz H1z).
  apply linearize_exact; [assumption | unfold clampGridPos; cbn [x_ y_ z_];
                                       lia ..].
Qed.

(** C4, as amended.  On a grid whose three sizes are at least 1,
    [calcGridHashHost] returns, for every [int3], negative or beyond the
    upper bound alike, a hash in [[0, nGridCells)]; it has no faulting
    path.  When [min] compares in [unsigned int], or no axis has more
    than [2^31] cells, it replaces every coordinate by its clamp into
    [[0, gridSize.axis - 1]] and the hash is the exact row-major index of
    the clamped cell (the [unsigned int] arithmetic does not wrap). *)
Theorem calcGridHashHost_clamps_in_range ov gd p :
  grid_wf gd -> is_int3 p ->
  1 <= x_ (gridSize gd) -> 1 <= y_ (gridSize gd) -> 1 <= z_ (gridSize gd) ->
  0 <= calcGridHashHost ov gd p < nGridCells gd /\
  (upper_clamp_ok ov gd ->
   let c := clampGridPos ov gd p in
   x_ c = Z.min (Z.max 0 (x_ p)) (x_ (gridSize gd) - 1) /\
   y_ c = Z.min (Z.max 0 (y_ p)) (y_ (gridSize gd) - 1) /\
   z_ c = Z.min (Z.max 0 (z_ p)) (z_ (gridSize gd) - 1) /\
   calcGridHashHost ov gd p
   = (z_ c * y_ (gridSize gd) + y_ c) * x_ (gridSize gd) + x_ c).
Proof.
  intros Hwf Hp H1x H1y H1z.
  split; [now apply calcGridHashHost_range|].
  intros Hov c.
  assert (Hc : c = make_vec3 (Z.min (Z.max 0 (x_ p)) (x_ (gridSize gd) - 1))
                             (Z.min (Z.max 0 (y_ p)) (y_ (gridSize gd) - 1))
                             (Z.min (Z.max 0 (z_ p)) (z_ (gridSize gd) - 1)))
    by now apply clampGridPos_exact.
  assert (Hin : in_grid gd c).
  { rewrite Hc. unfold in_grid. cbn [x_ y_ z_]. lia. }
  destruct Hin as (Hx & Hy & Hz).
  destruct (linearize_exact gd c Hwf Hx Hy Hz) as [Hlin Hrange].
  unfold calcGridHashHost. fold c.
  rewrite Hc at 1 2 3. cbn [x_ y_ z_].
  repeat split; try reflexivity; assumption.
Qed.

Lemma calcGridHashHost_clamps_in_range_witness :
  let p := make_vec3 (-7) 9 2 in
  0 <= calcGridHashHost min_int_int grid444 p < nGridCells grid444 /\
  let c := clampGridPos min_int_int grid444 p in
  x_ c = Z.min (Z.max 0 (x_ p)) (x_ (gridSize grid444) - 1) /\
  y_ c = Z.min (Z.max 0 (y_ p)) (y_ (gridSize grid444) - 1) /\
  z_ c = Z.min (Z.max 0 (z_ p)) (z_ (gridSize grid444) - 1) /\
  calcGridHashHost min_int_int grid444 p
  = (z_ c * y_ (gridSize grid444) + y_ c) * x_ (gridSize grid444) + x_ c.
Proof.
  intros p.
  destruct (calcGridHashHost_clamps_in_range min_int_int grid444 p)
    as [Hrange Hclamp]; [by_evaluation ..|].
  split; [exact Hrange|].
  apply Hclamp. right. by_evaluation.
Defined.

(** With [min(int, int)] on the grid with [2^32 - 1] cells along [z],
    the bound [gridSize.z - 1] is [-2] as an [int]: the cell (0, 0, 5)
    of the grid is sent to [z = -2], outside [[0, gridSize.z - 1]], and
    to the hash [2^32 - 2] instead of its own index 5. *)
Lemma clamp_fails_for_signed_min_on_long_axis :
  grid_wf grid_long_z /\
  is_int3 (make_vec3 0 0 5) /\
  in_grid grid_long_z (make_vec3 0 0 5) /\
  1 <= z_ (gridSize grid_long_z) /\
  clampGridPos min_int_int grid_long_z (make_vec3 0 0 5)
  = make_vec3 0 0 (-2) /\
  ~ (0 <= z_ (clampGridPos min_int_int grid_long_z (make_vec3 0 0 5))
     <= z_ (gridSize grid_long_z) - 1) /\
  calcGridHashHost min_int_int grid_long_z (make_vec3 0 0 5) = 4294967294 /\
  calcGridHashHost min_int_uint grid_long_z (make_vec3 0 0 5) = 5.
Proof.
  split; [exact grid_long_z_wf|].
  split; [by_evaluation|].
  split; [by_evaluation|].
  split; [by_evaluation|].
  split; [reflexivity|].
  split; [|split; reflexivity].
  vm_compute. intros [H _]. now apply H.
Qed.

(** The two overloads of [calcGridHashHost] compute the same hash. *)
Lemma calcGridHashHost3_eq ov gd cellX cellY cellZ :
  calcGridHashHost3 ov gd cellX cellY cellZ
  = calcGridHashHost ov gd (make_vec3 cellX cellY cellZ).
Proof.
  unfold calcGridHashHost3, calcGridHashHost, linearize, clampGridPos.
  cbn [x_ y_ z_]. reflexivity.
Qed.

(** ** Round trips between cells and hashes (C3) *)

(** Inside the grid the clamp changes nothing. *)
Lemma clampGridPos_in_grid ov gd p :
  grid_wf gd -> is_int3 p -> in_grid gd p -> upper_clamp_ok ov gd ->
  clampGridPos ov gd p = p.
Proof.
  intros ((Hgx & Hgy & Hgz) & _) (Hx%is_int_bounds & Hy%is_int_bounds
                                   & Hz%is_int_bounds) (Hix & Hiy & Hiz) Hov.
  destruct p as [px py pz]. unfold clampGridPos. cbn [x_ y_ z_] in *.
  rewrite !clamp_axis_id; try assumption; try lia; try reflexivity;
    (destruct Hov as [Hov|(Hfx & Hfy & Hfz)];
     [left; assumption | right; assumption]).
Qed.

Lemma calcGridHashHost_in_grid ov gd p :
  grid_wf gd -> is_int3 p -> in_grid gd p -> upper_clamp_ok ov gd ->
  calcGridHashHost ov gd p
  = (z_ p * y_ (gridSize gd) + y_ p) * x_ (gridSize gd) + x_ p
  /\ 0 <= calcGridHashHost ov gd p < nGridCells gd.
Proof.
  intros Hwf Hp Hin Hov. unfold calcGridHashHost.
  rewrite clampGridPos_in_grid by assumption.
  destruct Hin as (Hx & Hy & Hz). now apply linearize_exact.
Qed.

(** C3, as amended.  On a grid with [nGridCells] cells: when [min]
    compares in [unsigned int], or no axis has more than [2^31] cells,
    every [int3] cell inside the grid is recovered by
    [reverseGridHashHost] from its hash; and when no axis has more than
    [2^31] cells, so that every cell coordinate fits an [int], every
    hash below [nGridCells] is recovered by [calcGridHashHost] from the
    cell [reverseGridHashHost] returns. *)
Theorem grid_hash_roundtrip ov gd :
  grid_wf gd ->
  (forall p, is_int3 p -> in_grid gd p -> upper_clamp_ok ov gd ->
     reverseGridHashHost gd (calcGridHashHost ov gd p) = Some p) /\
  (forall h, 0 <= h < nGridCells gd -> axes_fit_int gd ->
     exists c, reverseGridHashHost gd h = Some c /\
               calcGridHashHost ov gd c = h).
Proof.
  intros Hwf. split.
  - intros p Hp Hin Hov.
    destruct (calcGridHashHost_in_grid ov gd p Hwf Hp Hin Hov)
      as [Hlin Hrange].
    rewrite reverseGridHashHost_exact by assumption.
    rewrite Hlin. destruct Hin as (Hx & Hy & Hz).
    rewrite unlinearize_linear by lia.
    destruct Hp as (Hpx%is_int_bounds & Hpy%is_int_bounds & Hpz%is_int_bounds).
    destruct p as [px py pz]. cbn [x_ y_ z_] in *.
    now rewrite !to_int_small by lia.
  - intros h Hh Hfit. pose proof Hfit as (Hfx & Hfy & Hfz).
    destruct (grid_wf_positive gd h Hwf Hh) as (Hx & Hy & Hz).
    assert (Hprod : nGridCells gd
                    = x_ (gridSize gd) * y_ (gridSize gd) * z_ (gridSize gd))
      by apply Hwf.
    pose proof (unlinearize_bounds (gridSize gd) h Hx Hy) as Hb.
    rewrite <- Hprod in Hb. specialize (Hb Hh). cbv zeta in Hb.
    destruct Hb as (Hbx & Hby & Hbz & Hlin).
    rewrite reverseGridHashHost_exact by assumption.
    rewrite !to_int_small by lia.
    eexists. split; [reflexivity|].
    set (c := unlinearize (gridSize gd) h) in *.
    assert (Hc : is_int3 (make_vec3 (x_ c) (y_ c) (z_ c))).
    { unfold is_int3, is_int, INT_MIN, INT_MAX. cbn [x_ y_ z_].
      change (2 ^ 31) with 2147483648. lia. }
    assert (Hin : in_grid gd (make_vec3 (x_ c) (y_ c) (z_ c))).
    { unfold in_grid. cbn [x_ y_ z_]. lia. }
    destruct (calcGridHashHost_in_grid ov gd _ Hwf Hc Hin) as [Hl _];
      [right; assumption|].
    rewrite Hl. cbn [x_ y_ z_]. lia.
Qed.

Lemma grid_hash_roundtrip_witness :
  reverseGridHashHost grid444
    (calcGridHashHost min_int_int grid444 (make_vec3 1 2 3))
  = Some (make_vec3 1 2 3) /\
  exists c, reverseGridHashHost grid444 37 = Some c /\
            calcGridHashHost min_int_int grid444 c = 37.
Proof.
  destruct (grid_hash_roundtrip min_int_int grid444) as [Hcell Hhash];
    [by_evaluation|].
  split.
  - apply Hcell; try by_evaluation. right. by_evaluation.
  - apply Hhash; by_evaluation.
Defined.

(** On a grid with [2^32 - 1] cells along [z], the hash [2^31] is below
    [nGridCells], yet [reverseGridHashHost] returns the cell
    [(0, 0, -2^31)] for it, which [calcGridHashHost] sends to the hash 0
    when [min] compares in [unsigned int] and to [2^32 - 2] with
    [min(int, int)]: with neither is the hash recovered.  On the same
    grid, with [min(int, int)], the cell (0, 0, 5) is not recovered from
    its hash either. *)
Lemma roundtrip_fails_on_long_axis :
  grid_wf grid_long_z /\
  0 <= 2147483648 < nGridCells grid_long_z /\
  reverseGridHashHost grid_long_z 2147483648
  = Some (make_vec3 0 0 (-2147483648)) /\
  calcGridHashHost min_int_uint grid_long_z (make_vec3 0 0 (-2147483648))
  = 0 /\
  calcGridHashHost min_int_int grid_long_z (make_vec3 0 0 (-2147483648))
  = 4294967294 /\
  (forall ov,
     ~ (exists c, reverseGridHashHost grid_long_z 2147483648 = Some c /\
                  calcGridHashHost ov grid_long_z c = 2147483648)) /\
  in_grid grid_long_z (make_vec3 0 0 5) /\
  reverseGridHashHost grid_long_z
    (calcGridHashHost min_int_int grid_long_z (make_vec3 0 0 5))
  = Some (make_vec3 0 0 (-2)).
Proof.
  split; [exact grid_long_z_wf|].
  split; [by_evaluation|].
  split; [reflexivity|].
  split; [reflexivity|].
  split; [reflexivity|].
  split; [|split; [by_evaluation | reflexivity]].
  intros ov (c & Hrev & Hhash).
  assert (Hc : c = make_vec3 0 0 (-2147483648)).
  { vm_compute in Hrev. congruence. }
  subst c. destruct ov; vm_compute in Hhash; discriminate.
Qed.

(** ** The two inversion helpers (C10) *)

(** On every valid hash the [int3] of [reverseGridHashHost] is, component
    by component, the [int] conversion of the [uint3] of
    [calcGridPosFromHash]. *)
Lemma inversions_agree_modulo_2_32 gd h :
  grid_wf gd -> 0 <= h < nGridCells gd ->
  exists u, calcGridPosFromHash gd h = Some u /\
            reverseGridHashHost gd h
            = Some (make_vec3 (to_int (x_ u)) (to_int (y_ u))
                              (to_int (z_ u))).
Proof.
  intros Hwf Hh. exists (unlinearize (gridSize gd) h). split.
  - now apply calcGridPosFromHash_exact.
  - now apply reverseGridHashHost_exact.
Qed.

(** C10, as amended.  For every hash below [nGridCells] on a grid none of
    whose axes has more than [2^31] cells, [calcGridPosFromHash] and
    [reverseGridHashHost] both return, and return the same three
    coordinates. *)
Theorem hash_inversions_agree gd h :
  grid_wf gd -> 0 <= h < nGridCells gd -> axes_fit_int gd ->
  exists c, calcGridPosFromHash gd h = Some c /\
            reverseGridHashHost gd h = Some c.
Proof.
  intros Hwf Hh (Hfx & Hfy & Hfz).
  destruct (grid_wf_positive gd h Hwf Hh) as (Hx & Hy & Hz).
  assert (Hprod : nGridCells gd
                  = x_ (gridSize gd) * y_ (gridSize gd) * z_ (gridSize gd))
    by apply Hwf.
  pose proof (unlinearize_bounds (gridSize gd) h Hx Hy) as Hb.
  rewrite <- Hprod in Hb. specialize (Hb Hh). cbv zeta in Hb.
  destruct Hb as (Hbx & Hby & Hbz & _).
  exists (unlinearize (gridSize gd) h). split.
  - now apply calcGridPosFromHash_exact.
  - rewrite reverseGridHashHost_exact by assumption.
    rewrite !to_int_small by lia.
    now destruct (unlinearize (gridSize gd) h).
Qed.

Lemma hash_inversions_agree_witness :
  exists c, calcGridPosFromHash grid444 37 = Some c /\
            reverseGridHashHost grid444 37 = Some c.
Proof. apply (hash_inversions_agree grid444 37); by_evaluation. Defined.

(** On the grid with [2^32 - 1] cells along [z] the helpers disagree on
    the hash [2^31]: one returns [z = 2^31], the other [z = -2^31]. *)
Lemma hash_inversions_differ_long_axis :
  grid_wf grid_long_z /\
  0 <= 2147483648 < nGridCells grid_long_z /\
  calcGridPosFromHash grid_long_z 2147483648
  = Some (make_vec3 0 0 2147483648) /\
  reverseGridHashHost grid_long_z 2147483648
  = Some (make_vec3 0 0 (-2147483648)) /\
  calcGridPosFromHash grid_long_z 2147483648
  <> reverseGridHashHost grid_long_z 2147483648.
Proof.
  split; [exact grid_long_z_wf|].
  split; [by_evaluation|].
  split; [reflexivity|].
  split; [reflexivity|].
  vm_compute. discriminate.
Qed.

(** ** The 4 x 4 x 4 scenario (C9) *)

(** C9.  With [gridSize = (4,4,4)], [cellSize = (1,1,1)] and
    [worldOrigin = (0,0,0)]: both overloads of [calcGridPosHost] send
    (3.5, 3.5, 3.5) to the cell (3,3,3), whose hash is 63; they send
    (10, 0, 0) to the cell (10,0,0), which [calcGridHashHost] clamps to
    (3,0,0) and hashes to 3, whichever [min] is selected. *)
Theorem scenario_grid444 ov :
  gridSize grid444 = make_vec3 4 4 4 /\
  cellSize grid444 = float3_of_Z 1 1 1 /\
  worldOrigin grid444 = float3_of_Z 0 0 0 /\
  calcGridPosHost3 grid444 f3_5 f3_5 f3_5 = Some (make_vec3 3 3 3) /\
  calcGridPosHost grid444 (make_vec3 f3_5 f3_5 f3_5)
  = Some (make_vec3 3 3 3) /\
  calcGridHashHost ov grid444 (make_vec3 3 3 3) = 63 /\
  calcGridPosHost3 grid444 (of_Z 10) (of_Z 0) (of_Z 0)
  = Some (make_vec3 10 0 0) /\
  clampGridPos ov grid444 (make_vec3 10 0 0) = make_vec3 3 0 0 /\
  calcGridHashHost ov grid444 (make_vec3 10 0 0) = 3.
Proof. destruct ov; repeat split; vm_compute; reflexivity. Qed.

(** ** Device lookup (C5) *)

Lemma floor_to_int_is_int f v : floor_to_int f = Some v -> is_int v.
Proof.
  unfold floor_to_int. destruct (floor_Z f) as [w|]; [|discriminate].
  destruct (Z.leb_spec INT_MIN w), (Z.leb_spec w INT_MAX);
    cbn [andb]; try discriminate.
  intros [= <-]. now split.
Qed.

Lemma calcGridPosHost3_is_int3 gd px py pz cell :
  calcGridPosHost3 gd px py pz = Some cell -> is_int3 cell.
Proof.
  unfold calcGridPosHost3.
  destruct (floor_to_int (fdiv (fsub px _) _)) as [vx|] eqn:Ex;
    cbn [mbind option_bind]; [|discriminate].
  destruct (floor_to_int (fdiv (fsub py _) _)) as [vy|] eqn:Ey;
    cbn [mbind option_bind]; [|discriminate].
  destruct (floor_to_int (fdiv (fsub pz _) _)) as [vz|] eqn:Ez;
    cbn [mbind option_bind]; [|discriminate].
  intros [= <-].
  unfold is_int3. cbn [x_ y_ z_].
  split; [|split]; eapply floor_to_int_is_int; eassumption.
Qed.

(** The two overloads of [calcGridPosHost] compute the same cell. *)
Lemma calcGridPosHost3_eq gd pos :
  calcGridPosHost3 gd (x_ pos) (y_ pos) (z_ pos) = calcGridPosHost gd pos.
Proof. reflexivity. Qed.

(** C5.  [calcGlobalDeviceIndex] is a function of the state and the
    position alone: it returns a value and has no store or output to act
    on.  With one device on one node it returns 0 without reading the
    device map, which may be null.  Otherwise, for every position, its
    result is the device-map entry at the hash of the cell of the
    position; and whenever the cell of the position is defined and the
    map has one entry per cell of a grid with at least one cell per axis,
    that entry exists and is what is returned. *)
Theorem calcGlobalDeviceIndex_spec ov gd pos :
  (devices gd = 1 -> mpi_nodes gd = 1 ->
     calcGlobalDeviceIndex ov gd pos = Some 0) /\
  (~ (devices gd = 1 /\ mpi_nodes gd = 1) ->
     calcGlobalDeviceIndex ov gd pos
     = (cell ← calcGridPosHost3 gd (x4 pos) (y4 pos) (z4 pos);
        map ← s_hDeviceMap gd;
        map !! Z.to_nat (calcGridHashHost ov gd cell))) /\
  (~ (devices gd = 1 /\ mpi_nodes gd = 1) ->
     forall cell map,
       calcGridPosHost3 gd (x4 pos) (y4 pos) (z4 pos) = Some cell ->
       s_hDeviceMap gd = Some map ->
       grid_wf gd ->
       1 <= x_ (gridSize gd) -> 1 <= y_ (gridSize gd) ->
       1 <= z_ (gridSize gd) ->
       Z.of_nat (length map) = nGridCells gd ->
       exists dev, map !! Z.to_nat (calcGridHashHost ov gd cell) = Some dev /\
                   calcGlobalDeviceIndex ov gd pos = Some dev).
Proof.
  assert (Hmulti : ~ (devices gd = 1 /\ mpi_nodes gd = 1) ->
                   (devices gd =? 1) && (mpi_nodes gd =? 1) = false).
  { intros Hn. apply andb_false_iff.
    destruct (Z.eqb_spec (devices gd) 1), (Z.eqb_spec (mpi_nodes gd) 1);
      tauto. }
  repeat split.
  - intros Hd Hm. unfold calcGlobalDeviceIndex. now rewrite Hd, Hm.
  - intros Hn. unfold calcGlobalDeviceIndex. now rewrite (Hmulti Hn).
  - intros Hn cell map Hcell Hmap Hwf H1x H1y H1z Hlen.
    pose proof (calcGridPosHost3_is_int3 _ _ _ _ _ Hcell) as Hint.
    destruct (calcGridHashHost_range ov gd cell Hwf Hint
                H1x H1y H1z) as [Hlo Hhi].
    destruct (lookup_lt_is_Some_2 map (Z.to_nat (calcGridHashHost ov gd cell)))
      as [dev Hdev]; [lia|].
    exists dev. split; [assumption|].
    unfold calcGlobalDeviceIndex.
    rewrite (Hmulti Hn), Hcell, Hmap. cbn [mbind option_bind]. assumption.
Qed.

Lemma calcGlobalDeviceIndex_spec_witness :
  calcGlobalDeviceIndex min_int_uint grid_long_z
    (make_vec4 (of_Z 10) (of_Z 0) (of_Z 0) (of_Z 0)) = Some 0 /\
  exists dev,
    (repeat 0 32 ++ repeat 1 32)
      !! Z.to_nat (calcGridHashHost min_int_int grid444 (make_vec3 3 3 3))
    = Some dev /\
    calcGlobalDeviceIndex min_int_int grid444
      (make_vec4 f3_5 f3_5 f3_5 (of_Z 0))
    = Some dev.
Proof.
  split.
  - apply (calcGlobalDeviceIndex_spec min_int_uint grid_long_z); reflexivity.
  - apply (calcGlobalDeviceIndex_spec min_int_int grid444
             (make_vec4 f3_5 f3_5 f3_5 (of_Z 0)));
      try (intros [Hd _]; vm_compute in Hd; discriminate);
      by_evaluation.
Defined.

(** ** Swapping generations (C1) *)

Lemma flag_set_named BUFFER buffers q :
  flag_set buffers (BUFFER q) = true <-> named BUFFER buffers q.
Proof.
  unfold flag_set, named.
  destruct (Z.eqb_spec (Z.land buffers (BUFFER q)) 0); cbn [negb];
    split; congruence.
Qed.

(** Both indices of every quantity after one call. *)
Lemma swapDeviceBuffers_indices BUFFER buffers gd q :
  (readIndex (swapDeviceBuffers BUFFER buffers gd) q,
   writeIndex (swapDeviceBuffers BUFFER buffers gd) q)
  = if swapped_by_swapDeviceBuffers q && flag_set buffers (BUFFER q)
    then (writeIndex gd q, readIndex gd q)
    else (readIndex gd q, writeIndex gd q).
Proof.
  unfold swapDeviceBuffers.
  destruct q; cbn [swapped_by_swapDeviceBuffers andb];
    destruct (flag_set buffers (BUFFER POS)),
             (flag_set buffers (BUFFER VEL)),
             (flag_set buffers (BUFFER INFO)); reflexivity.
Qed.

(** C1, as amended.  For any assignment of keys to the quantities and any
    flag argument, [swapDeviceBuffers] exchanges the read and write index
    of each of POS, VEL and INFO that the argument names, leaves the
    indices of POS, VEL and INFO unchanged when it does not name them, and
    leaves the indices of every other double-buffered quantity unchanged
    whether the argument names it or not. *)
Theorem swapDeviceBuffers_pos_vel_info BUFFER buffers gd q :
  (swapped_by_swapDeviceBuffers q = true -> named BUFFER buffers q ->
     readIndex (swapDeviceBuffers BUFFER buffers gd) q = writeIndex gd q /\
     writeIndex (swapDeviceBuffers BUFFER buffers gd) q = readIndex gd q) /\
  (swapped_by_swapDeviceBuffers q = true -> ~ named BUFFER buffers q ->
     readIndex (swapDeviceBuffers BUFFER buffers gd) q = readIndex gd q /\
     writeIndex (swapDeviceBuffers BUFFER buffers gd) q = writeIndex gd q) /\
  (swapped_by_swapDeviceBuffers q = false ->
     readIndex (swapDeviceBuffers BUFFER buffers gd) q = readIndex gd q /\
     writeIndex (swapDeviceBuffers BUFFER buffers gd) q = writeIndex gd q).
Proof.
  pose proof (swapDeviceBuffers_indices BUFFER buffers gd q) as Hidx.
  pose proof (flag_set_named BUFFER buffers q) as Hnamed.
  split; [|split].
  - intros Hq Hn. apply Hnamed in Hn.
    rewrite Hq, Hn in Hidx. cbn [andb] in Hidx. split; congruence.
  - intros Hq Hn. rewrite Hq in Hidx. cbn [andb] in Hidx.
    destruct (flag_set buffers (BUFFER q)).
    + exfalso. apply Hn. now apply Hnamed.
    + split; congruence.
  - intros Hq. rewrite Hq in Hidx. cbn [andb] in Hidx. split; congruence.
Qed.

Lemma swapDeviceBuffers_pos_vel_info_witness :
  let flags := Z.lor (sample_BUFFER POS) (sample_BUFFER TKE) in
  (readIndex (swapDeviceBuffers sample_BUFFER flags started) POS = 1 /\
   writeIndex (swapDeviceBuffers sample_BUFFER flags started) POS = 0) /\
  (readIndex (swapDeviceBuffers sample_BUFFER flags started) VEL = 0 /\
   writeIndex (swapDeviceBuffers sample_BUFFER flags started) VEL = 1) /\
  (readIndex (swapDeviceBuffers sample_BUFFER flags started) TKE = 0 /\
   writeIndex (swapDeviceBuffers sample_BUFFER flags started) TKE = 1).
Proof.
  intros flags. split; [|split].
  - destruct (swapDeviceBuffers_pos_vel_info sample_BUFFER flags started POS)
      as (Hswap & _ & _).
    apply Hswap; [reflexivity | vm_compute; discriminate].
  - destruct (swapDeviceBuffers_pos_vel_info sample_BUFFER flags started VEL)
      as (_ & Hkeep & _).
    apply Hkeep; [reflexivity | vm_compute; intros H; now apply H].
  - destruct (swapDeviceBuffers_pos_vel_info sample_BUFFER flags started TKE)
      as (_ & _ & Hother).
    apply Hother. reflexivity.
Defined.

(** Passing the key of PRESSURE, or all of [BUFFERS_ALL_DBL], leaves the
    indices of PRESSURE where they were: they are not exchanged. *)
Lemma swapDeviceBuffers_ignores_pressure :
  named sample_BUFFER (sample_BUFFER PRESSURE) PRESSURE /\
  named sample_BUFFER (BUFFERS_ALL_DBL sample_BUFFER) PRESSURE /\
  readIndex started PRESSURE = 0 /\
  writeIndex started PRESSURE = 1 /\
  readIndex (swapDeviceBuffers sample_BUFFER (sample_BUFFER PRESSURE) started)
            PRESSURE = 0 /\
  writeIndex (swapDeviceBuffers sample_BUFFER (sample_BUFFER PRESSURE) started)
             PRESSURE = 1 /\
  readIndex (swapDeviceBuffers sample_BUFFER (BUFFERS_ALL_DBL sample_BUFFER)
                               started) PRESSURE = 0 /\
  ~ (readIndex (swapDeviceBuffers sample_BUFFER (sample_BUFFER PRESSURE)
                                  started) PRESSURE
     = writeIndex started PRESSURE).
Proof.
  repeat split; try reflexivity; vm_compute; discriminate.
Qed.

(** ** The generation invariant (C2) *)

Lemma swapDeviceBuffers_generation_ok BUFFER buffers gd q :
  generation_ok gd q ->
  generation_ok (swapDeviceBuffers BUFFER buffers gd) q.
Proof.
  unfold generation_ok.
  pose proof (swapDeviceBuffers_indices BUFFER buffers gd q) as Hidx.
  destruct (swapped_by_swapDeviceBuffers q && flag_set buffers (BUFFER q));
    injection Hidx as -> ->; intuition congruence.
Qed.

(** The constructor assigns none of the generation indices. *)
Lemma GlobalData_ctor_indices raw q :
  readIndex (GlobalData_ctor raw) q = readIndex raw q /\
  writeIndex (GlobalData_ctor raw) q = writeIndex raw q.
Proof. now destruct q. Qed.

(** C2, as amended.  The constructor assigns no generation index: after
    it, the read and write index of every double-buffered quantity are
    what the storage of the object held.  For every double-buffered
    quantity whose read and write index are different and each 0 or 1,
    they are still different and each 0 or 1 after any sequence of
    [swapDeviceBuffers] calls, with any flag arguments. *)
Theorem generation_invariant_preserved BUFFER calls raw gd q :
  (readIndex (GlobalData_ctor raw) q = readIndex raw q /\
   writeIndex (GlobalData_ctor raw) q = writeIndex raw q) /\
  (generation_ok gd q ->
   generation_ok (swapDeviceBuffers_seq BUFFER calls gd) q).
Proof.
  split; [apply GlobalData_ctor_indices|].
  unfold swapDeviceBuffers_seq. revert gd.
  induction calls as [|buffers calls IH]; intros gd Hok; cbn [fold_left].
  - assumption.
  - apply IH. now apply swapDeviceBuffers_generation_ok.
Qed.

Lemma generation_invariant_preserved_witness :
  generation_ok
    (swapDeviceBuffers_seq sample_BUFFER
       [sample_BUFFER POS; BUFFERS_ALL_DBL sample_BUFFER; sample_BUFFER VEL]
       started) POS.
Proof.
  apply (generation_invariant_preserved sample_BUFFER
           [sample_BUFFER POS; BUFFERS_ALL_DBL sample_BUFFER;
            sample_BUFFER VEL] zero_storage started POS).
  unfold generation_ok. vm_compute. intuition discriminate.
Defined.

(** Right after construction over zeroed storage, and before any swap,
    the read and the write index of POS are both 0. *)
Lemma generation_invariant_fails_after_ctor :
  readIndex (GlobalData_ctor zero_storage) POS = 0 /\
  writeIndex (GlobalData_ctor zero_storage) POS = 0 /\
  ~ generation_ok
      (swapDeviceBuffers_seq sample_BUFFER [] (GlobalData_ctor zero_storage))
      POS.
Proof.
  split; [reflexivity|]. split; [reflexivity|].
  intros [Hne _]. apply Hne. reflexivity.
Qed.

(** ** Buffer lookups *)

Example sample_lookup_VEL :
  getBufferData sample_heap sample_list KEY_VEL 0 = Some NULL /\
  getBufferData sample_heap sample_list KEY_VEL 7 = Some NULL /\
  getBuffer sample_list KEY_POS = 4096 /\
  entries sample_list = [(KEY_POS, 4096); (KEY_VEL, 8192)].
Proof. repeat split; vm_compute; reflexivity. Qed.

Lemma GenericBuffer_get_buffer_out_of_range b idx :
  is_uint idx -> array_count b <= idx ->
  GenericBuffer_get_buffer b idx = Some NULL.
Proof.
  intros Hidx%is_uint_bounds Hge. unfold GenericBuffer_get_buffer.
  assert (Hn : 0 <= array_count b) by (unfold array_count; lia).
  rewrite to_uint_small by lia.
  destruct (Z.leb_spec (array_count b) idx); [reflexivity | lia].
Qed.

Lemma GenericBuffer_get_buffer_unallocated b idx :
  is_uint idx -> unallocated b -> GenericBuffer_get_buffer b idx = Some NULL.
Proof.
  intros Hidx%is_uint_bounds Hnull. unfold GenericBuffer_get_buffer.
  destruct (Z.leb_spec (to_uint (array_count b)) idx) as [|Hlt];
    [reflexivity|].
  assert (Hle : to_uint (array_count b) <= array_count b).
  { unfold to_uint. rewrite UINT_MOD_val.
    apply Z.mod_le; unfold array_count; lia. }
  destruct (lookup_lt_is_Some_2 (m_bufs b) (Z.to_nat idx)) as [p Hp].
  { unfold array_count in *. lia. }
  rewrite Hp. f_equal.
  exact (Forall_lookup_1 _ _ _ _ Hnull Hp).
Qed.

(** A freshly constructed buffer has no array allocated. *)
Lemma GenericBuffer_ctor_unallocated sizeof_T N _init :
  unallocated (GenericBuffer_ctor sizeof_T N _init)
  /\ array_count (GenericBuffer_ctor sizeof_T N _init) = Z.of_nat N.
Proof.
  unfold unallocated, array_count, GenericBuffer_ctor. cbn [m_bufs]. split.
  - apply Forall_forall. intros p Hp.
    apply elem_of_replicate in Hp. apply Hp.
  - now rewrite length_replicate.
Qed.

(** C7.  For every buffer object with [N] arrays, [get_buffer(idx)] with
    [idx >= N] returns the null pointer; [getBufferData] returns the null
    pointer when the key is not in the list, and also, for every array
    number, when the key is in the list and none of the arrays of its
    buffer has been allocated.  None of these calls faults. *)
Theorem absent_buffers_yield_null :
  (forall o b idx,
     storage o = Some b -> is_uint idx -> array_count b <= idx ->
     get_buffer o idx = Some NULL) /\
  (forall (h : heap) (l : BufferList) Key num,
     l !! Key = None -> getBufferData h l Key num = Some NULL) /\
  (forall (h : heap) (l : BufferList) Key num p o b,
     l !! Key = Some p -> deref h p = Some o -> storage o = Some b ->
     unallocated b -> is_uint num ->
     getBufferData h l Key num = Some NULL).
Proof.
  split; [|split].
  - intros o b idx Hs Hidx Hge.
    destruct o; cbn in Hs; try discriminate; injection Hs as ->;
      now apply GenericBuffer_get_buffer_out_of_range.
  - intros h l Key num Hnone. unfold getBufferData. now rewrite Hnone.
  - intros h l Key num p o b Hp Ho Hs Hnull Hnum.
    unfold getBufferData. rewrite Hp, Ho. cbn [mbind option_bind].
    destruct o; cbn in Hs; try discriminate; injection Hs as ->;
      now apply GenericBuffer_get_buffer_unallocated.
Qed.

Lemma absent_buffers_yield_null_witness :
  get_buffer (Buffer_ctor KEY_POS "Position" 16 2 0) 2 = Some NULL /\
  getBufferData sample_heap sample_list (sample_BUFFER INFO) 0 = Some NULL /\
  getBufferData sample_heap sample_list KEY_VEL 1 = Some NULL.
Proof.
  destruct absent_buffers_yield_null as (Hrange & Hkey & Hnull).
  split; [|split].
  - apply (Hrange _ (GenericBuffer_ctor 16 2 0)); by_evaluation.
  - apply Hkey. reflexivity.
  - apply (Hnull _ _ _ _ 8192 (Buffer_ctor KEY_VEL "Velocity" 16 2 0)
                 (GenericBuffer_ctor 16 2 0));
      try reflexivity; [|by_evaluation].
    repeat constructor.
Defined.

(** ** Inserting into a BufferList (C6) *)

(** C6.  Inserting a buffer under a key the list already has throws and
    leaves the list as it was, so the buffer under that key is not
    replaced; inserting under a key the list does not have returns with
    the buffer stored under the key and every other key as before. *)
Theorem BufferList_insert_no_overwrite (l : BufferList) Key buf :
  (forall old, l !! Key = Some old ->
     BufferList_insert Key buf l
     = Throws "trying to add a buffer for an already-available key!" l) /\
  (l !! Key = None ->
     exists l' : BufferList,
       BufferList_insert Key buf l = Returns tt l' /\
       l' !! Key = Some buf /\
       forall k, k <> Key -> l' !! k = l !! k).
Proof.
  unfold BufferList_insert. split.
  - intros old Hold. now rewrite Hold.
  - intros Hnone. rewrite Hnone. eexists. split; [reflexivity|]. split.
    + apply lookup_insert_eq.
    + intros k Hk. now apply lookup_insert_ne.
Qed.

Lemma BufferList_insert_no_overwrite_witness :
  BufferList_insert KEY_POS 12288 sample_list
  = Throws "trying to add a buffer for an already-available key!"
           sample_list /\
  (exists l' : BufferList,
     BufferList_insert (sample_BUFFER INFO) 12288 sample_list
     = Returns tt l' /\
     l' !! sample_BUFFER INFO = Some 12288 /\
     forall k, k <> sample_BUFFER INFO -> l' !! k = sample_list !! k).
Proof.
  split.
  - apply (BufferList_insert_no_overwrite sample_list KEY_POS 12288) with 4096.
    reflexivity.
  - apply (BufferList_insert_no_overwrite sample_list (sample_BUFFER INFO)
             12288).
    reflexivity.
Defined.

(** ** Clearing a BufferList (C8) *)

(** Deleting a run of pointers succeeds when each non-null pointer is
    live and occurs once; exactly those objects are gone afterwards. *)
Lemma delete_each_spec ps (h : heap) :
  (forall p, p ∈ ps -> p <> NULL -> is_Some (h !! p)) ->
  NoDup (filter (fun p => p <> NULL) ps) ->
  exists h' : heap,
    delete_each ps h = Some h' /\
    (forall q, q ∈ ps -> q <> NULL -> h' !! q = None) /\
    (forall q, q ∉ ps -> h' !! q = h !! q).
Proof.
  revert h. induction ps as [|p ps IH]; intros h Hlive Hnd.
  - exists h. split; [reflexivity|]. split.
    + intros q Hq. now apply elem_of_nil in Hq.
    + reflexivity.
  - cbn [delete_each]. unfold delete_object.
    destruct (Z.eqb_spec p NULL) as [Hnull|Hp].
    + rewrite filter_cons_False in Hnd by (intros Hne; now apply Hne).
      destruct (IH h) as (h' & Hrun & Hgone & Hkept); [|assumption|].
      { intros q Hq. apply Hlive. now right. }
      exists h'. split; [assumption|]. split.
      * intros q [->|Hq]%elem_of_cons Hne; [contradiction|]. now apply Hgone.
      * intros q Hq. apply Hkept. intros Hin. apply Hq. now right.
    + rewrite filter_cons_True in Hnd by assumption.
      apply NoDup_cons in Hnd as [Hfresh Hnd].
      destruct (Hlive p) as [o Ho]; [now left | assumption |]. rewrite Ho.
      assert (Hp_ps : p ∉ ps).
      { intros Hin. apply Hfresh. apply list_elem_of_filter. now split. }
      destruct (IH (delete p h)) as (h' & Hrun & Hgone & Hkept);
        [|assumption|].
      { intros q Hq Hne. rewrite lookup_delete_ne.
        - apply Hlive; [now right | assumption].
        - intros ->. contradiction. }
      exists h'. split; [assumption|]. split.
      * intros q [->|Hq]%elem_of_cons Hne.
        -- rewrite Hkept by assumption. apply lookup_delete_eq.
        -- now apply Hgone.
      * intros q Hq. rewrite Hkept.
        -- apply lookup_delete_ne. intros ->. apply Hq. now left.
        -- intros Hin. apply Hq. now right.
Qed.

(** The pointers of a run of entries with distinct keys are distinct,
    the null ones aside, when no object sits under two keys. *)
Lemma owned_pointers_NoDup (es : list (Z * pointer)) :
  NoDup es.*1 ->
  (forall k1 k2 p, (k1, p) ∈ es -> (k2, p) ∈ es -> p <> NULL -> k1 = k2) ->
  NoDup (filter (fun p => p <> NULL) es.*2).
Proof.
  induction es as [|[k p] es IH]; intros Hkeys Hinj.
  - constructor.
  - cbn [fmap list_fmap fst snd] in *.
    apply NoDup_cons in Hkeys as [Hk Hkeys].
    assert (Hrest : NoDup (filter (fun p => p <> NULL) es.*2)).
    { apply IH; [assumption|]. intros k1 k2 q H1 H2.
      apply Hinj; now right. }
    destruct (decide (p = NULL)) as [Hnull|Hp].
    + rewrite filter_cons_False by (intros Hne; now apply Hne). assumption.
    + rewrite filter_cons_True by assumption.
      apply NoDup_cons. split; [|assumption].
      intros [_ Hin]%list_elem_of_filter.
      apply list_elem_of_fmap in Hin as ([k' p'] & Heq & Hin).
      cbn in Heq. subst p'.
      apply Hk. apply list_elem_of_fmap. exists (k', p). split.
      * cbn. symmetry. apply (Hinj k' k p); [now right | now left | assumption].
      * assumption.
Qed.

Lemma entries_spec (l : BufferList) k p :
  (k, p) ∈ entries l <-> l !! k = Some p.
Proof.
  unfold entries. rewrite merge_sort_Permutation.
  apply elem_of_map_to_list.
Qed.

Lemma entries_keys_NoDup (l : BufferList) : NoDup (entries l).*1.
Proof.
  unfold entries. rewrite merge_sort_Permutation.
  apply NoDup_fst_map_to_list.
Qed.

Lemma entries_empty : entries ∅ = [].
Proof. unfold entries. now rewrite map_to_list_empty. Qed.

(** On the empty list [clear] deletes nothing and returns. *)
Lemma clear_empty (h : heap) :
  clear (h, ∅) = Returns tt (h, ∅).
Proof. unfold clear. cbn [fst snd]. now rewrite entries_empty. Qed.

(** C8.  On a list that owns its buffers, [clear] returns and leaves the
    list empty, with every buffer the list held destroyed and every other
    object untouched; a second [clear], now on the empty list, returns as
    well and leaves the list empty and the heap as it is. *)
Theorem clear_twice (h : heap) (l : BufferList) :
  owns h l ->
  exists h' : heap,
    clear (h, l) = Returns tt (h', ∅) /\
    clear (h', ∅) = Returns tt (h', ∅) /\
    (forall k p, l !! k = Some p -> p <> NULL -> h' !! p = None) /\
    (forall q, (forall k, l !! k <> Some q) -> h' !! q = h !! q).
Proof.
  intros [Hlive Hinj].
  destruct (delete_each_spec (entries l).*2 h) as (h' & Hrun & Hgone & Hkept).
  - intros p Hp Hne.
    apply list_elem_of_fmap in Hp as ([k p'] & -> & Hin).
    apply entries_spec in Hin. now apply (Hlive k).
  - apply owned_pointers_NoDup; [apply entries_keys_NoDup|].
    intros k1 k2 p H1%entries_spec H2%entries_spec. now apply Hinj.
  - exists h'. split; [|split; [|split]].
    + unfold clear. cbn [fst snd]. now rewrite Hrun.
    + apply clear_empty.
    + intros k p Hk Hne. apply Hgone; [|assumption].
      apply list_elem_of_fmap. exists (k, p). split; [reflexivity|].
      now apply entries_spec.
    + intros q Hq. apply Hkept.
      intros Hin. apply list_elem_of_fmap in Hin as ([k p'] & -> & Hin).
      apply entries_spec in Hin. now apply (Hq k).
Qed.

Lemma sample_list_owned : owns sample_heap sample_list.
Proof.
  assert (Hl : forall k p, sample_list !! k = Some p ->
                 (k = KEY_POS /\ p = 4096) \/ (k = KEY_VEL /\ p = 8192)).
  { intros k p. unfold sample_list.
    destruct (decide (k = KEY_POS)) as [->|Hk1].
    - rewrite lookup_insert_eq. intros [= <-]. now left.
    - rewrite lookup_insert_ne by congruence.
      destruct (decide (k = KEY_VEL)) as [->|Hk2].
      + rewrite lookup_insert_eq. intros [= <-]. now right.
      + rewrite lookup_insert_ne by congruence.
        rewrite lookup_empty. discriminate. }
  split.
  - intros k p Hk _. destruct (Hl k p Hk) as [[_ ->]|[_ ->]];
      vm_compute; eexists; reflexivity.
  - intros k1 k2 p H1 H2 _.
    destruct (Hl k1 p H1) as [[-> ->]|[-> ->]],
             (Hl k2 _ H2) as [[-> Hp]|[-> Hp]];
      try reflexivity; discriminate.
Qed.

Lemma clear_twice_witness :
  exists h' : heap,
    clear (sample_heap, sample_list) = Returns tt (h', ∅) /\
    clear (h', ∅) = Returns tt (h', ∅) /\
    (forall k p, sample_list !! k = Some p -> p <> NULL -> h' !! p = None) /\
    (forall q, (forall k, sample_list !! k <> Some q) ->
       h' !! q = sample_heap !! q).
Proof. apply (clear_twice sample_heap sample_list), sample_list_owned. Defined.

(** A list that holds one object under two keys does not own it, and
    [clear] deletes the object twice. *)
Remark clear_faults_on_shared_buffer :
  clear (sample_heap, <[KEY_VEL := 4096]> sample_list) = Faults.
Proof. vm_compute. reflexivity. Qed.

(** * Further properties *)

Example addSeparators_samples :
  addSeparators 0 = Some "0"%string /\
  addSeparators 999 = Some "999"%string /\
  addSeparators 1000 = Some "1,000"%string /\
  addSeparators 1234567 = Some "1,234,567"%string /\
  addSeparators (-1234567) = Some "-1,234,567"%string /\
  addSeparators 1000000 = Some "1,000"%string /\
  addSeparators 1234567890123 = Some "1234,567,890,123"%string /\
  grouped 6 1000000 = "1,000,000"%string /\
  rankString (GlobalData_ctor zero_storage) = "4294967295.0"%string.
Proof. repeat split; vm_compute; reflexivity. Qed.

(** ** Thousands separators *)

Lemma string_app_assoc (a b c : string) :
  ((a ++ b) ++ c = a ++ (b ++ c))%string.
Proof.
  induction a as [|ch a IH]; [reflexivity|].
  change (String ch ((a ++ b) ++ c) = String ch (a ++ (b ++ c)))%string.
  now f_equal.
Qed.

Lemma addSeparators_loop_exit rounds oss n m p :
  n < 1000 -> addSeparators_loop rounds oss n m p = Some (oss, n, p).
Proof.
  intros Hn. destruct rounds; cbn [addSeparators_loop];
    destruct (Z.ltb_spec n 1000); (reflexivity || lia).
Qed.

Lemma addSeparators_loop_skip rounds oss n m p :
  1000 <= n < m ->
  addSeparators_loop (S rounds) oss n m p
  = addSeparators_loop rounds oss n (m / 1000) p.
Proof.
  intros Hn. cbn [addSeparators_loop].
  destruct (Z.ltb_spec n 1000); [lia|].
  destruct (Z.leb_spec m n); [lia | reflexivity].
Qed.

Lemma addSeparators_loop_take rounds oss n m p :
  1000 <= n -> 0 < m <= n ->
  addSeparators_loop (S rounds) oss n m p
  = addSeparators_loop rounds
      ((if p then oss ++ padding (n / m) else oss) ++ dec (n / m) ++ ",")%string
      (n mod m) (m / 1000) true.
Proof.
  intros Hn Hm. cbn [addSeparators_loop].
  destruct (Z.ltb_spec n 1000); [lia|].
  destruct (Z.leb_spec m n); [|lia].
  destruct (Z.eqb_spec m 0); [lia | reflexivity].
Qed.

(** The loop started at magnitude 1000, 10^6 and 10^9 ends. *)
Lemma addSeparators_loop_ends_3 rounds oss n p :
  0 <= n < 1000000 ->
  exists r, addSeparators_loop (S rounds) oss n 1000 p = Some r.
Proof.
  intros Hn. destruct (Z.lt_ge_cases n 1000).
  - rewrite addSeparators_loop_exit by assumption. eauto.
  - rewrite addSeparators_loop_take by lia.
    pose proof (Z.mod_pos_bound n 1000 ltac:(lia)).
    rewrite addSeparators_loop_exit by lia. eauto.
Qed.

Lemma addSeparators_loop_ends_6 rounds oss n p :
  0 <= n < 1000000000 ->
  exists r, addSeparators_loop (S (S rounds)) oss n 1000000 p = Some r.
Proof.
  intros Hn. destruct (Z.lt_ge_cases n 1000).
  - rewrite addSeparators_loop_exit by assumption. eauto.
  - destruct (Z.lt_ge_cases n 1000000).
    + rewrite addSeparators_loop_skip by lia.
      change (1000000 / 1000) with 1000.
      apply addSeparators_loop_ends_3. lia.
    + rewrite addSeparators_loop_take by lia.
      change (1000000 / 1000) with 1000.
      pose proof (Z.mod_pos_bound n 1000000 ltac:(lia)).
      apply addSeparators_loop_ends_3. lia.
Qed.

Lemma addSeparators_loop_ends_9 rounds oss n p :
  0 <= n ->
  exists r,
    addSeparators_loop (S (S (S rounds))) oss n 1000000000 p = Some r.
Proof.
  intros Hn. destruct (Z.lt_ge_cases n 1000).
  - rewrite addSeparators_loop_exit by assumption. eauto.
  - destruct (Z.lt_ge_cases n 1000000000).
    + rewrite addSeparators_loop_skip by lia.
      change (1000000000 / 1000) with 1000000.
      apply addSeparators_loop_ends_6. lia.
    + rewrite addSeparators_loop_take by lia.
      change (1000000000 / 1000) with 1000000.
      pose proof (Z.mod_pos_bound n 1000000000 ltac:(lia)).
      apply addSeparators_loop_ends_6. lia.
Qed.

(** X1.  [addSeparators] returns a string for every [long] other than
    [LONG_MIN]: its loop ends within three rounds and never divides by a
    zero magnitude.  For [LONG_MIN] the negation overflows. *)
Theorem addSeparators_returns number :
  is_long number ->
  (number <> LONG_MIN -> exists s, addSeparators number = Some s) /\
  (number = LONG_MIN -> addSeparators number = None).
Proof.
  intros [Hlo Hhi]. split.
  - intros Hne. unfold addSeparators.
    destruct (Z.eqb_spec number LONG_MIN); [contradiction|].
    destruct (addSeparators_loop_ends_9 2
                (if number <? 0 then "-"%string else ""%string)
                (if number <? 0 then number * -1 else number) false)
      as ([[oss n'] p] & ->).
    + destruct (Z.ltb_spec number 0); lia.
    + eauto.
  - intros ->. reflexivity.
Qed.

Lemma addSeparators_returns_witness :
  (exists s, addSeparators (-1234567) = Some s) /\
  addSeparators LONG_MIN = None.
Proof.
  split.
  - apply (addSeparators_returns (-1234567)); by_evaluation.
  - apply (addSeparators_returns LONG_MIN); by_evaluation.
Defined.

(** A prefix already in the stream stays in front of what the loop
    writes. *)
Lemma addSeparators_loop_prefix pre rounds oss n m p :
  addSeparators_loop rounds (pre ++ oss)%string n m p
  = match addSeparators_loop rounds oss n m p with
    | Some (o, n', p') => Some ((pre ++ o)%string, n', p')
    | None => None
    end.
Proof.
  revert oss n m p. induction rounds as [|rounds IH]; intros oss n m p;
    cbn [addSeparators_loop]; destruct (n <? 1000); try reflexivity.
  destruct (m <=? n); [|apply IH].
  destruct (m =? 0); [reflexivity|].
  rewrite <- IH. f_equal.
  destruct p; now rewrite ?string_app_assoc.
Qed.

(** X2.  For a negative [long] other than [LONG_MIN], [addSeparators]
    writes a minus sign followed by what it writes for the absolute
    value. *)
Theorem addSeparators_negative number :
  0 < number <= LONG_MAX ->
  exists s, addSeparators number = Some s /\
            addSeparators (- number) = Some ("-" ++ s)%string.
Proof.
  intros Hn.
  assert (Hmax : LONG_MAX = 9223372036854775807) by reflexivity.
  assert (Hmin : LONG_MIN = -9223372036854775808) by reflexivity.
  unfold addSeparators.
  destruct (Z.eqb_spec number LONG_MIN); [lia|].
  destruct (Z.eqb_spec (- number) LONG_MIN); [lia|].
  destruct (Z.ltb_spec number 0); [lia|].
  destruct (Z.ltb_spec (- number) 0); [|lia].
  replace (- number * -1) with number by lia.
  change "-"%string with ("-" ++ "")%string at 1.
  rewrite addSeparators_loop_prefix.
  destruct (addSeparators_loop_ends_9 2 ""%string number false)
    as ([[oss n'] p] & ->); [lia|].
  eexists. split; [reflexivity|].
  f_equal. destruct p; now rewrite ?string_app_assoc.
Qed.

Lemma addSeparators_negative_witness :
  exists s, addSeparators 1234567 = Some s /\
            addSeparators (- 1234567) = Some ("-" ++ s)%string.
Proof. apply (addSeparators_negative 1234567). by_evaluation. Defined.

(** Two groups: a leading group [a] and a last group [c]. *)
Lemma addSeparators_two_groups a c :
  1 <= a < 1000 -> 0 <= c < 1000 ->
  addSeparators (a * 1000 + c)
  = Some (dec a ++ "," ++ padding c ++ dec c)%string.
Proof.
  intros Ha Hc.
  assert (Hmin : LONG_MIN = -9223372036854775808) by reflexivity.
  unfold addSeparators.
  destruct (Z.eqb_spec (a * 1000 + c) LONG_MIN); [lia|].
  destruct (Z.ltb_spec (a * 1000 + c) 0); [lia|].
  rewrite addSeparators_loop_skip by lia.
  change (1000000000 / 1000) with 1000000.
  rewrite addSeparators_loop_skip by lia.
  change (1000000 / 1000) with 1000.
  rewrite addSeparators_loop_take by lia.
  assert (Hq : (a * 1000 + c) / 1000 = a).
  { symmetry. apply (Z.div_unique _ _ _ c); lia. }
  assert (Hr : (a * 1000 + c) mod 1000 = c).
  { symmetry. apply (Z.mod_unique _ _ a); lia. }
  rewrite Hq, Hr.
  rewrite addSeparators_loop_exit by lia.
  f_equal. change ("" ++ dec a ++ ",")%string with (dec a ++ ",")%string.
  now rewrite !string_app_assoc.
Qed.

(** X3.  When the number has a leading group [a], a middle group 000
    and a last group [c], the loop ends after the leading group: the
    text is that of the number [a,ccc], with the middle group missing. *)
Theorem addSeparators_drops_zero_group a c :
  1 <= a < 1000 -> 0 <= c < 1000 ->
  addSeparators (a * 1000000 + c)
  = Some (dec a ++ "," ++ padding c ++ dec c)%string /\
  addSeparators (a * 1000000 + c) = addSeparators (a * 1000 + c).
Proof.
  intros Ha Hc.
  assert (Hmin : LONG_MIN = -9223372036854775808) by reflexivity.
  assert (Hgoal : addSeparators (a * 1000000 + c)
                  = Some (dec a ++ "," ++ padding c ++ dec c)%string).
  { unfold addSeparators.
    destruct (Z.eqb_spec (a * 1000000 + c) LONG_MIN); [lia|].
    destruct (Z.ltb_spec (a * 1000000 + c) 0); [lia|].
    rewrite addSeparators_loop_skip by lia.
    change (1000000000 / 1000) with 1000000.
    rewrite addSeparators_loop_take by lia.
    assert (Hq : (a * 1000000 + c) / 1000000 = a).
    { symmetry. apply (Z.div_unique _ _ _ c); lia. }
    assert (Hr : (a * 1000000 + c) mod 1000000 = c).
    { symmetry. apply (Z.mod_unique _ _ a); lia. }
    rewrite Hq, Hr.
    rewrite addSeparators_loop_exit by lia.
    f_equal. change ("" ++ dec a ++ ",")%string with (dec a ++ ",")%string.
    now rewrite !string_app_assoc. }
  split; [exact Hgoal|].
  rewrite Hgoal. symmetry. now apply addSeparators_two_groups.
Qed.

Lemma addSeparators_drops_zero_group_witness :
  addSeparators 1000000 = Some "1,000"%string /\
  addSeparators 1000000 = addSeparators 1000.
Proof. apply (addSeparators_drops_zero_group 1 0); by_evaluation. Defined.

(** X4.  For a number below 10^9 that has no middle group 000 (it is
    below 10^6, or its last six digits are at least 1000),
    [addSeparators] writes the digits in groups of three. *)
Theorem addSeparators_groups number :
  0 <= number < 1000000000 ->
  number < 1000000 \/ 1000 <= number mod 1000000 ->
  addSeparators number = Some (grouped 7 number).
Proof.
  intros Hn Hmid.
  assert (Hmin : LONG_MIN = -9223372036854775808) by reflexivity.
  destruct (Z.lt_ge_cases number 1000) as [H3|H3].
  { unfold addSeparators.
    destruct (Z.eqb_spec number LONG_MIN); [lia|].
    destruct (Z.ltb_spec number 0); [lia|].
    rewrite addSeparators_loop_exit by lia.
    cbn [grouped]. destruct (Z.ltb_spec number 1000); [reflexivity | lia]. }
  pose proof (Z.div_mod number 1000 ltac:(lia)) as Hdm.
  pose proof (Z.mod_pos_bound number 1000 ltac:(lia)) as Hmb.
  cbn [grouped]. destruct (Z.ltb_spec number 1000); [lia|].
  destruct (Z.lt_ge_cases number 1000000) as [H6|H6].
  { replace number with (number / 1000 * 1000 + number mod 1000) at 1 by lia.
    rewrite addSeparators_two_groups by lia.
    destruct (Z.ltb_spec (number / 1000) 1000); [reflexivity | lia]. }
  destruct Hmid as [|Hmid]; [lia|].
  destruct (Z.ltb_spec (number / 1000) 1000); [lia|].
  assert (Hq6 : number / 1000 / 1000 = number / 1000000)
    by (rewrite Z.div_div by lia; reflexivity).
  assert (Hq3 : (number mod 1000000) / 1000 = (number / 1000) mod 1000).
  { change 1000000 with (1000 * 1000). rewrite Z.rem_mul_r by lia.
    rewrite Z.mul_comm, Z.div_add by lia.
    rewrite Z.mod_div by lia. lia. }
  assert (Hr3 : (number mod 1000000) mod 1000 = number mod 1000).
  { change 1000000 with (1000 * 1000). rewrite Z.rem_mul_r by lia.
    rewrite Z.mul_comm, Z.mod_add by lia. apply Z.mod_mod. lia. }
  pose proof (Z.mod_pos_bound number 1000000 ltac:(lia)) as Hmb6.
  assert (Ha : 1 <= number / 1000000 < 1000).
  { split; [apply Z.div_le_lower_bound | apply Z.div_lt_upper_bound]; lia. }
  rewrite Hq6. destruct (Z.ltb_spec (number / 1000000) 1000); [|lia].
  unfold addSeparators.
  destruct (Z.eqb_spec number LONG_MIN); [lia|].
  destruct (Z.ltb_spec number 0); [lia|].
  rewrite addSeparators_loop_skip by lia.
  change (1000000000 / 1000) with 1000000.
  rewrite addSeparators_loop_take by lia.
  change (1000000 / 1000) with 1000.
  rewrite addSeparators_loop_take by lia.
  rewrite Hq3, Hr3.
  rewrite addSeparators_loop_exit by lia.
  f_equal.
  change ("" ++ dec (number / 1000000) ++ ",")%string
    with (dec (number / 1000000) ++ ",")%string.
  now rewrite !string_app_assoc.
Qed.

Lemma addSeparators_groups_witness :
  addSeparators 12034567 = Some (grouped 7 12034567).
Proof.
  apply (addSeparators_groups 12034567); [by_evaluation|].
  right. by_evaluation.
Defined.

(** ** Global device identifiers *)

(** A low part below [2^b] is or-ed into a multiple of [2^b] without
    carries. *)
Lemma lor_high_low hi lo b :
  0 <= b -> 0 <= lo < 2 ^ b -> Z.lor (hi * 2 ^ b) lo = hi * 2 ^ b + lo.
Proof.
  intros Hb Hlo.
  assert (Hand : Z.land (hi * 2 ^ b) lo = 0).
  { apply Z.bits_inj'. intros i Hi.
    rewrite Z.land_spec, Z.bits_0.
    destruct (Z.lt_ge_cases i b) as [Hlt|Hge].
    - rewrite Z.mul_pow2_bits_low by lia. reflexivity.
    - rewrite <- (Z.mod_small lo (2 ^ b)) by lia.
      rewrite Z.mod_pow2_bits_high by lia. apply andb_false_r. }
  pose proof (Z.add_lor_land (hi * 2 ^ b) lo). lia.
Qed.

(** The two halves of a byte split at bit [bits]. *)
Lemma byte_split bits :
  0 <= bits <= 8 -> 0 < 2 ^ bits /\ 0 < 2 ^ (8 - bits) /\
                    2 ^ (8 - bits) * 2 ^ bits = 256.
Proof.
  intros Hb. rewrite <- Z.pow_add_r by lia.
  replace (8 - bits + bits) with 8 by lia.
  repeat split; try reflexivity; apply Z.pow_pos_nonneg; lia.
Qed.

(** What [GLOBAL_DEVICE_ID] computes, in arithmetic. *)
Lemma GLOBAL_DEVICE_ID_value bits mask r d :
  device_bits_wf bits mask -> 0 <= r < 2 ^ (8 - bits) ->
  GLOBAL_DEVICE_ID bits mask r d = r * 2 ^ bits + d mod 2 ^ bits.
Proof.
  intros [Hb ->] Hr.
  destruct (byte_split bits Hb) as (HP & HQ & HPQ).
  unfold GLOBAL_DEVICE_ID, to_uchar.
  replace (2 ^ bits - 1) with (Z.ones bits)
    by (rewrite Z.ones_equiv; lia).
  rewrite Z.land_ones, Z.shiftl_mul_pow2 by lia.
  pose proof (Z.mod_pos_bound d (2 ^ bits) HP) as Hd.
  rewrite lor_high_low by lia.
  apply Z.mod_small. nia.
Qed.

(** [RANK] and [DEVICE] of a byte given by its two parts. *)
Lemma RANK_of_sum bits r lo :
  0 <= bits <= 8 -> 0 <= r < 2 ^ (8 - bits) -> 0 <= lo < 2 ^ bits ->
  RANK bits (r * 2 ^ bits + lo) = r.
Proof.
  intros Hb Hr Hlo. destruct (byte_split bits Hb) as (HP & HQ & HPQ).
  unfold RANK, to_uchar. rewrite Z.shiftr_div_pow2 by lia.
  rewrite Z.div_add_l by lia. rewrite Z.div_small by lia.
  rewrite Z.add_0_r. apply Z.mod_small. nia.
Qed.

Lemma DEVICE_of_sum bits mask r lo :
  device_bits_wf bits mask -> 0 <= lo < 2 ^ bits ->
  DEVICE mask (r * 2 ^ bits + lo) = lo.
Proof.
  intros [Hb ->] Hlo. destruct (byte_split bits Hb) as (HP & HQ & HPQ).
  unfold DEVICE, to_uchar.
  replace (2 ^ bits - 1) with (Z.ones bits)
    by (rewrite Z.ones_equiv; lia).
  rewrite Z.land_ones by lia.
  rewrite Z.add_comm, Z.mod_add by lia. rewrite (Z.mod_small lo) by lia.
  apply Z.mod_small. nia.
Qed.

(** X5.  A global device id built from a rank that fits the rank bits
    and a local device index gives back the rank through [RANK] and the
    device bits of the index through [DEVICE] - the index itself when it
    fits the device bits. *)
Theorem GLOBAL_DEVICE_ID_decodes bits mask r d :
  device_bits_wf bits mask -> 0 <= r < 2 ^ (8 - bits) ->
  RANK bits (GLOBAL_DEVICE_ID bits mask r d) = r /\
  DEVICE mask (GLOBAL_DEVICE_ID bits mask r d) = d mod 2 ^ bits /\
  (0 <= d < 2 ^ bits -> DEVICE mask (GLOBAL_DEVICE_ID bits mask r d) = d).
Proof.
  intros Hwf Hr. rewrite (GLOBAL_DEVICE_ID_value bits mask r d Hwf Hr).
  pose proof Hwf as [Hb _].
  destruct (byte_split bits Hb) as (HP & HQ & HPQ).
  pose proof (Z.mod_pos_bound d (2 ^ bits) HP) as Hd.
  split; [now apply RANK_of_sum|].
  rewrite (DEVICE_of_sum bits mask r _ Hwf Hd).
  split; [reflexivity|].
  intros Hsmall. now apply Z.mod_small.
Qed.

Lemma GLOBAL_DEVICE_ID_decodes_witness :
  RANK 3 (GLOBAL_DEVICE_ID 3 7 21 5) = 21 /\
  DEVICE 7 (GLOBAL_DEVICE_ID 3 7 21 5) = 5 mod 2 ^ 3 /\
  (0 <= 5 < 2 ^ 3 -> DEVICE 7 (GLOBAL_DEVICE_ID 3 7 21 5) = 5).
Proof. apply (GLOBAL_DEVICE_ID_decodes 3 7 21 5); by_evaluation. Defined.

(** X6.  Every byte is the global device id of its own rank and device
    parts. *)
Theorem GLOBAL_DEVICE_ID_of_parts bits mask g :
  device_bits_wf bits mask -> is_uchar g ->
  GLOBAL_DEVICE_ID bits mask (RANK bits g) (DEVICE mask g) = g.
Proof.
  intros Hwf Hg. pose proof Hwf as [Hb Hmask].
  destruct (byte_split bits Hb) as (HP & HQ & HPQ).
  unfold is_uchar in Hg.
  pose proof (Z.div_mod g (2 ^ bits) ltac:(lia)) as Hdm.
  pose proof (Z.mod_pos_bound g (2 ^ bits) HP) as Hmb.
  assert (Hq : 0 <= g / 2 ^ bits < 2 ^ (8 - bits)).
  { split; [apply Z.div_pos; lia | apply Z.div_lt_upper_bound; lia]. }
  assert (Hrank : RANK bits g = g / 2 ^ bits).
  { unfold RANK, to_uchar. rewrite Z.shiftr_div_pow2 by lia.
    apply Z.mod_small. nia. }
  assert (Hdev : DEVICE mask g = g mod 2 ^ bits).
  { unfold DEVICE, to_uchar. rewrite Hmask.
    replace (2 ^ bits - 1) with (Z.ones bits)
      by (rewrite Z.ones_equiv; lia).
    rewrite Z.land_ones by lia. apply Z.mod_small. nia. }
  rewrite Hrank, Hdev.
  rewrite GLOBAL_DEVICE_ID_value by assumption.
  rewrite Z.mod_mod by lia. lia.
Qed.

Lemma GLOBAL_DEVICE_ID_of_parts_witness :
  GLOBAL_DEVICE_ID 3 7 (RANK 3 173) (DEVICE 7 173) = 173.
Proof. apply (GLOBAL_DEVICE_ID_of_parts 3 7 173); by_evaluation. Defined.

(** ** Converting the device map *)

(** The loop over [count] cells from cell [n]: when the cells are inside
    the map and the divisor is not zero, it returns the map with exactly
    those cells converted. *)
Lemma convertDeviceMap_from_spec bits mask count n devs (map : list Z) :
  devs <> 0 -> 0 <= n -> (Z.to_nat n + count <= length map)%nat ->
  exists map' : list Z,
    convertDeviceMap_from bits mask count n devs map = Some map' /\
    length map' = length map /\
    forall i : nat,
      map' !! i
      = if decide (Z.to_nat n <= i < Z.to_nat n + count)%nat
        then converted_entry bits mask devs <$> map !! i
        else map !! i.
Proof.
  revert n map. induction count as [|count IH]; intros n map Hdevs Hn Hlen.
  - exists map. split; [reflexivity|]. split; [reflexivity|].
    intros i. case_decide; [lia | reflexivity].
  - cbn [convertDeviceMap_from].
    destruct (lookup_lt_is_Some_2 map (Z.to_nat n)) as [v Hv]; [lia|].
    rewrite Hv. cbn [mbind option_bind]. unfold udiv.
    destruct (Z.eqb_spec devs 0); [contradiction|]. cbn [mbind option_bind].
    destruct (IH (n + 1)
                 (<[Z.to_nat n := converted_entry bits mask devs v]> map))
      as (map' & Hrun & Hlen' & Hlook); [assumption | lia | |].
    { rewrite length_insert. lia. }
    exists map'. split; [exact Hrun|]. split.
    { rewrite Hlen'. apply length_insert. }
    intros i. rewrite Hlook.
    replace (Z.to_nat (n + 1)) with (S (Z.to_nat n)) by lia.
    destruct (decide (i = Z.to_nat n)) as [->|Hi].
    + rewrite list_lookup_insert_eq by lia. rewrite Hv.
      repeat case_decide; (reflexivity || lia).
    + rewrite list_lookup_insert_ne by congruence.
      repeat case_decide; (reflexivity || lia).
Qed.

(** The loop has no result when it runs past the end of the map. *)
Lemma convertDeviceMap_from_overrun bits mask count n devs (map : list Z) :
  0 <= n -> (Z.to_nat n <= length map < Z.to_nat n + count)%nat ->
  convertDeviceMap_from bits mask count n devs map = None.
Proof.
  revert n map. induction count as [|count IH]; intros n map Hn Hlen.
  - lia.
  - cbn [convertDeviceMap_from].
    destruct (map !! Z.to_nat n) as [v|] eqn:Hv; [|reflexivity].
    cbn [mbind option_bind]. unfold udiv.
    destruct (devs =? 0); [reflexivity|]. cbn [mbind option_bind].
    apply IH; [lia|]. rewrite length_insert.
    apply lookup_lt_Some in Hv. lia.
Qed.

(** X7.  With a non-zero device count and a map that covers the
    [nGridCells] cells, [convertDeviceMap] returns; the new map has the
    length of the old one, every cell below [nGridCells] holds the global
    device id of (entry / devices, entry % devices), every later entry
    is unchanged, and the grid and the device counts are as before. *)
Theorem convertDeviceMap_converts bits mask gd (map : list Z) :
  s_hDeviceMap gd = Some map ->
  devices gd <> 0 ->
  0 <= nGridCells gd <= Z.of_nat (length map) ->
  exists gd' (map' : list Z),
    convertDeviceMap bits mask gd = Some gd' /\
    s_hDeviceMap gd' = Some map' /\
    length map' = length map /\
    (forall (i : nat) v, map !! i = Some v ->
       map' !! i
       = Some (if Z.of_nat i <? nGridCells gd
               then converted_entry bits mask (devices gd) v else v)) /\
    gridSize gd' = gridSize gd /\ nGridCells gd' = nGridCells gd /\
    devices gd' = devices gd /\ mpi_nodes gd' = mpi_nodes gd.
Proof.
  intros Hmap Hdevs Hcells.
  destruct (convertDeviceMap_from_spec bits mask
              (Z.to_nat (nGridCells gd)) 0 (devices gd) map)
    as (map' & Hrun & Hlen & Hlook); [assumption | lia | lia |].
  unfold convertDeviceMap. rewrite Hmap, Hrun. cbn [mbind option_bind].
  eexists. exists map'. split; [reflexivity|].
  cbn [s_hDeviceMap gridSize nGridCells devices mpi_nodes set_domain].
  repeat split; try assumption.
  intros i v Hv. rewrite Hlook, Hv. cbn [fmap option_fmap option_map].
  destruct (Z.ltb_spec (Z.of_nat i) (nGridCells gd));
    case_decide; (reflexivity || lia).
Qed.

Lemma convertDeviceMap_converts_witness :
  exists gd' (map' : list Z),
    convertDeviceMap 3 7 grid222 = Some gd' /\
    s_hDeviceMap gd' = Some map' /\
    length map' = length [0; 1; 2; 3; 3; 2; 1; 0] /\
    (forall (i : nat) v, [0; 1; 2; 3; 3; 2; 1; 0] !! i = Some v ->
       map' !! i
       = Some (if Z.of_nat i <? nGridCells grid222
               then converted_entry 3 7 (devices grid222) v else v)) /\
    gridSize gd' = gridSize grid222 /\
    nGridCells gd' = nGridCells grid222 /\
    devices gd' = devices grid222 /\ mpi_nodes gd' = mpi_nodes grid222.
Proof.
  apply (convertDeviceMap_converts 3 7 grid222 [0; 1; 2; 3; 3; 2; 1; 0]);
    [reflexivity | vm_compute; discriminate | by_evaluation].
Defined.

(** X8.  When the device count is positive and fits the device bits,
    [GLOBAL_DEVICE_NUM] gives back, from a converted entry, the entry
    the map held before [convertDeviceMap], for every byte whose rank
    part fits the rank bits. *)
Theorem GLOBAL_DEVICE_NUM_of_converted bits mask gd v :
  device_bits_wf bits mask ->
  0 < devices gd <= 2 ^ bits ->
  is_uchar v -> v / devices gd < 2 ^ (8 - bits) ->
  GLOBAL_DEVICE_NUM bits mask gd (converted_entry bits mask (devices gd) v)
  = v.
Proof.
  intros Hwf Hdevs Hv Hrank. pose proof Hwf as [Hb Hmask].
  destruct (byte_split bits Hb) as (HP & HQ & HPQ).
  unfold is_uchar in Hv.
  pose proof (Z.div_mod v (devices gd) ltac:(lia)) as Hdm.
  pose proof (Z.mod_pos_bound v (devices gd) ltac:(lia)) as Hmb.
  assert (Hq : 0 <= v / devices gd) by (apply Z.div_pos; lia).
  unfold converted_entry, GLOBAL_DEVICE_NUM.
  rewrite (Z.mod_small (v / devices gd) 256 ltac:(nia)
           : to_uchar (v / devices gd) = v / devices gd).
  rewrite (Z.mod_small (v mod devices gd) 256 ltac:(nia)
           : to_uchar (v mod devices gd) = v mod devices gd).
  rewrite GLOBAL_DEVICE_ID_value by (assumption || lia).
  rewrite (Z.mod_small (v mod devices gd) (2 ^ bits)) by lia.
  rewrite RANK_of_sum by lia.
  rewrite (DEVICE_of_sum bits mask _ _ Hwf) by lia.
  unfold uadd, umul.
  rewrite (to_uint_small (devices gd * (v / devices gd))) by nia.
  rewrite to_uint_small by nia.
  unfold to_uchar. rewrite Z.mod_small by lia. lia.
Qed.

Lemma GLOBAL_DEVICE_NUM_of_converted_witness :
  GLOBAL_DEVICE_NUM 3 7 grid222 (converted_entry 3 7 (devices grid222) 3)
  = 3.
Proof.
  apply (GLOBAL_DEVICE_NUM_of_converted 3 7 grid222 3); by_evaluation.
Defined.

(** X9.  [convertDeviceMap] has no defined result, on a grid with at
    least one cell, when the device count is zero (division by zero),
    when the map is null, or when the map has fewer entries than the
    grid has cells (a read past its end).  On a grid with no cell it
    returns and changes nothing. *)
Theorem convertDeviceMap_undefined bits mask gd :
  (0 < nGridCells gd -> devices gd = 0 ->
     convertDeviceMap bits mask gd = None) /\
  (0 < nGridCells gd -> s_hDeviceMap gd = None ->
     convertDeviceMap bits mask gd = None) /\
  (forall map : list Z,
     s_hDeviceMap gd = Some map -> Z.of_nat (length map) < nGridCells gd ->
     convertDeviceMap bits mask gd = None) /\
  (nGridCells gd <= 0 -> convertDeviceMap bits mask gd = Some gd).
Proof.
  unfold convertDeviceMap. split; [|split; [|split]].
  - intros Hcells Hdevs. rewrite Hdevs.
    destruct (Z.to_nat (nGridCells gd)) as [|count] eqn:Hc; [lia|].
    destruct (s_hDeviceMap gd) as [map|]; [|reflexivity].
    cbn [convertDeviceMap_from].
    destruct (map !! Z.to_nat 0); reflexivity.
  - intros Hcells ->.
    destruct (Z.to_nat (nGridCells gd)) eqn:Hc; [lia | reflexivity].
  - intros map -> Hshort.
    rewrite convertDeviceMap_from_overrun by lia. reflexivity.
  - intros Hcells. replace (Z.to_nat (nGridCells gd)) with O by lia.
    destruct (s_hDeviceMap gd) as [map|] eqn:Hmap; [|reflexivity].
    cbn [convertDeviceMap_from mbind option_bind].
    destruct gd. cbn in *. now subst.
Qed.

Lemma convertDeviceMap_undefined_witness :
  convertDeviceMap 3 7 grid222_no_map = None /\
  convertDeviceMap 3 7 (GlobalData_ctor zero_storage)
  = Some (GlobalData_ctor zero_storage).
Proof.
  split.
  - destruct (convertDeviceMap_undefined 3 7 grid222_no_map)
      as (_ & Hnull & _).
    apply Hnull; by_evaluation.
  - destruct (convertDeviceMap_undefined 3 7 (GlobalData_ctor zero_storage))
      as (_ & _ & _ & Hempty).
    apply Hempty. by_evaluation.
Defined.

(** ** More on swapping generations *)

(** X10.  Swapping twice with the same flag argument restores the whole
    state, and two swaps commute, for any keys and any flag arguments. *)
Theorem swapDeviceBuffers_involutive BUFFER a b gd :
  swapDeviceBuffers BUFFER a (swapDeviceBuffers BUFFER a gd) = gd /\
  swapDeviceBuffers BUFFER a (swapDeviceBuffers BUFFER b gd)
  = swapDeviceBuffers BUFFER b (swapDeviceBuffers BUFFER a gd).
Proof.
  unfold swapDeviceBuffers. destruct gd.
  destruct (flag_set a (BUFFER POS)), (flag_set a (BUFFER VEL)),
           (flag_set a (BUFFER INFO)), (flag_set b (BUFFER POS)),
           (flag_set b (BUFFER VEL)), (flag_set b (BUFFER INFO));
    split; reflexivity.
Qed.






(** ** More on grid hashes *)

(** X12.  When [min] compares in [unsigned int], or no axis has more
    than [2^31] cells, two different cells inside the grid have different
    hashes. *)
Theorem calcGridHashHost_injective ov gd p q :
  grid_wf gd -> upper_clamp_ok ov gd ->
  is_int3 p -> is_int3 q -> in_grid gd p -> in_grid gd q ->
  p <> q -> calcGridHashHost ov gd p <> calcGridHashHost ov gd q.
Proof.
  intros Hwf Hov Hp Hq Hinp Hinq Hne Heq. apply Hne.
  destruct (calcGridHashHost_in_grid ov gd p Hwf Hp Hinp Hov) as [Hlp _].
  destruct (calcGridHashHost_in_grid ov gd q Hwf Hq Hinq Hov) as [Hlq _].
  rewrite Hlp, Hlq in Heq.
  destruct Hinp as (Hpx & Hpy & Hpz), Hinq as (Hqx & Hqy & Hqz).
  rewrite <- (unlinearize_linear (gridSize gd) p) by lia.
  rewrite <- (unlinearize_linear (gridSize gd) q) by lia.
  now rewrite Heq.
Qed.

Lemma calcGridHashHost_injective_witness :
  calcGridHashHost min_int_int grid444 (make_vec3 1 2 3)
  <> calcGridHashHost min_int_int grid444 (make_vec3 3 2 1).
Proof.
  apply (calcGridHashHost_injective min_int_int grid444);
    try by_evaluation.
  right. by_evaluation.
Defined.

(** X13.  On a grid with at least one cell per axis, when [min]
    compares in [unsigned int] or no axis has more than [2^31] cells,
    every [int3] has the hash of its clamped cell, which lies inside the
    grid and is left alone by a second clamp: a cell outside the grid
    shares its hash with a cell on the boundary. *)
Theorem calcGridHashHost_of_clamped ov gd p :
  grid_wf gd -> is_int3 p ->
  1 <= x_ (gridSize gd) -> 1 <= y_ (gridSize gd) -> 1 <= z_ (gridSize gd) ->
  upper_clamp_ok ov gd ->
  in_grid gd (clampGridPos ov gd p) /\
  is_int3 (clampGridPos ov gd p) /\
  clampGridPos ov gd (clampGridPos ov gd p) = clampGridPos ov gd p /\
  calcGridHashHost ov gd (clampGridPos ov gd p) = calcGridHashHost ov gd p.
Proof.
  intros Hwf Hp H1x H1y H1z Hov.
  assert (Hin : in_grid gd (clampGridPos ov gd p)).
  { rewrite clampGridPos_exact by assumption.
    unfold in_grid. cbn [x_ y_ z_]. lia. }
  assert (Hint : is_int3 (clampGridPos ov gd p)).
  { unfold clampGridPos, is_int3. cbn [x_ y_ z_].
    repeat split; apply to_int_range. }
  assert (Hidem : clampGridPos ov gd (clampGridPos ov gd p)
                  = clampGridPos ov gd p)
    by now apply clampGridPos_in_grid.
  repeat split; try assumption; try apply Hin; try apply Hint.
  unfold calcGridHashHost. now rewrite Hidem.
Qed.

Lemma calcGridHashHost_of_clamped_witness :
  in_grid grid444 (clampGridPos min_int_int grid444 (make_vec3 (-7) 9 2)) /\
  is_int3 (clampGridPos min_int_int grid444 (make_vec3 (-7) 9 2)) /\
  clampGridPos min_int_int grid444
    (clampGridPos min_int_int grid444 (make_vec3 (-7) 9 2))
  = clampGridPos min_int_int grid444 (make_vec3 (-7) 9 2) /\
  calcGridHashHost min_int_int grid444
    (clampGridPos min_int_int grid444 (make_vec3 (-7) 9 2))
  = calcGridHashHost min_int_int grid444 (make_vec3 (-7) 9 2).
Proof.
  apply (calcGridHashHost_of_clamped min_int_int grid444
           (make_vec3 (-7) 9 2)); try by_evaluation.
  right. by_evaluation.
Defined.

(** X14.  When [gridSize.x] or [gridSize.y] is 0, both inversion helpers
    divide by zero on every hash. *)
Theorem hash_inversions_divide_by_zero gd h :
  x_ (gridSize gd) = 0 \/ y_ (gridSize gd) = 0 ->
  calcGridPosFromHash gd h = None /\ reverseGridHashHost gd h = None.
Proof.
  intros Hzero. unfold calcGridPosFromHash, reverseGridHashHost.
  assert (H1 : umul (x_ (gridSize gd)) (y_ (gridSize gd)) = 0).
  { unfold umul. destruct Hzero as [-> | ->];
      [rewrite Z.mul_0_l | rewrite Z.mul_0_r]; reflexivity. }
  assert (H2 : umul (y_ (gridSize gd)) (x_ (gridSize gd)) = 0).
  { unfold umul. destruct Hzero as [-> | ->];
      [rewrite Z.mul_0_r | rewrite Z.mul_0_l]; reflexivity. }
  rewrite H1, H2. split; reflexivity.
Qed.

Lemma hash_inversions_divide_by_zero_witness :
  calcGridPosFromHash (GlobalData_ctor zero_storage) 5 = None /\
  reverseGridHashHost (GlobalData_ctor zero_storage) 5 = None.
Proof.
  apply (hash_inversions_divide_by_zero (GlobalData_ctor zero_storage) 5).
  left. reflexivity.
Defined.

(** X15.  Right after construction [calcGlobalDeviceIndex] has no result
    for any position, whichever [min] is selected: the device counts
    are 0, so the single-device shortcut is not taken, and the device map
    is null. *)
Theorem calcGlobalDeviceIndex_after_ctor ov raw pos :
  calcGlobalDeviceIndex ov (GlobalData_ctor raw) pos = None.
Proof.
  unfold calcGlobalDeviceIndex. cbn [devices mpi_nodes GlobalData_ctor].
  cbn [Z.eqb andb].
  destruct (calcGridPosHost3 _ _ _ _); reflexivity.
Qed.

(** ** More on buffers *)

(** X16.  [get_offset_buffer] of a generic buffer whose arrays have
    [elems] elements: for every index [get_buffer] returns, and
    [get_offset_buffer] returns the null pointer where [get_buffer]
    returns it (index out of range, array not allocated), whatever the
    offset; where [get_buffer] returns an array, it returns that pointer
    advanced by [offset] elements for every offset up to [elems], one
    past the end, and has no defined result for a larger offset; with
    offset 0 it returns what [get_buffer] returns.  When the arrays lie
    in the 64-bit address space, so does every pointer it returns. *)
Theorem GenericBuffer_get_offset_buffer_spec elems b idx offset :
  is_uint idx -> is_size_t offset -> 0 <= elems ->
  exists p,
    GenericBuffer_get_buffer b idx = Some p /\
    (array_count b <= idx -> p = NULL) /\
    (p = NULL ->
       GenericBuffer_get_offset_buffer elems b idx offset = Some NULL) /\
    (p <> NULL -> offset <= elems ->
       GenericBuffer_get_offset_buffer elems b idx offset
       = Some (p + offset * element_size b)) /\
    (p <> NULL -> elems < offset ->
       GenericBuffer_get_offset_buffer elems b idx offset = None) /\
    GenericBuffer_get_offset_buffer elems b idx 0 = Some p /\
    (arrays_in_memory elems b -> p <> NULL -> offset <= elems ->
       0 < p + offset * element_size b < 2 ^ 64).
Proof.
  intros Hidx%is_uint_bounds Hoff Helems.
  unfold GenericBuffer_get_buffer, GenericBuffer_get_offset_buffer.
  unfold pointer in *.
  assert (Hsz : to_size_t offset = offset).
  { unfold to_size_t. apply Z.mod_small. exact Hoff. }
  assert (Hle : to_uint (array_count b) <= array_count b).
  { unfold to_uint. rewrite UINT_MOD_val.
    apply Z.mod_le; unfold array_count; lia. }
  destruct (Z.leb_spec (to_uint (array_count b)) idx) as [Hge|Hlt].
  - exists NULL. repeat split; try reflexivity; intros; congruence.
  - destruct (lookup_lt_is_Some_2 (m_bufs b) (Z.to_nat idx)) as [p Hp].
    { unfold array_count in *. lia. }
    unfold pointer in *.
    exists p. rewrite Hp. cbn [mbind option_bind]. rewrite Hsz.
    change (to_size_t 0) with 0.
    split; [reflexivity|]. split; [lia|]. split; [|split; [|split; [|split]]].
    + intros ->. reflexivity.
    + intros Hp0 Hin.
      destruct (Z.eqb_spec p NULL) as [?|_]; [contradiction|].
      destruct (Z.leb_spec offset elems); [reflexivity | lia].
    + intros Hp0 Hout.
      destruct (Z.eqb_spec p NULL) as [?|_]; [contradiction|].
      destruct (Z.leb_spec offset elems); [lia | reflexivity].
    + destruct (Z.eqb_spec p NULL) as [->|_]; [reflexivity|].
      destruct (Z.leb_spec 0 elems); [f_equal; lia | lia].
    + intros (_ & Hsize & Hmem) Hp0 Hin.
      rewrite Forall_forall in Hmem.
      destruct (Hmem p) as [?|[Hpos Hend]];
        [now apply list_elem_of_lookup_2 in Hp | contradiction |].
      destruct Hoff as [Hoff0 _]. nia.
Qed.

Lemma GenericBuffer_get_offset_buffer_spec_witness :
  GenericBuffer_get_offset_buffer 100 (mkGenericBuffer 16 0 [4096; 0]) 0 10
  = Some 4256 /\
  GenericBuffer_get_offset_buffer 100 (mkGenericBuffer 16 0 [4096; 0]) 0 101
  = None /\
  GenericBuffer_get_offset_buffer 100 (mkGenericBuffer 16 0 [4096; 0]) 1 10
  = Some NULL.
Proof.
  split; [|split].
  - destruct (GenericBuffer_get_offset_buffer_spec
                100 (mkGenericBuffer 16 0 [4096; 0]) 0 10)
      as (p & Hget & _ & _ & Hin & _); [by_evaluation ..|].
    injection Hget as <-.
    apply Hin; [discriminate | by_evaluation].
  - destruct (GenericBuffer_get_offset_buffer_spec
                100 (mkGenericBuffer 16 0 [4096; 0]) 0 101)
      as (p & Hget & _ & _ & _ & Hout & _); [by_evaluation ..|].
    injection Hget as <-.
    apply Hout; [discriminate | by_evaluation].
  - destruct (GenericBuffer_get_offset_buffer_spec
                100 (mkGenericBuffer 16 0 [4096; 0]) 1 10)
      as (p & Hget & _ & Hnull & _); [by_evaluation ..|].
    injection Hget as <-.
    apply Hnull. reflexivity.
Defined.

(** X17.  Inserting, under a key the list does not have, a pointer that
    is null or refers to a live object the list does not hold yet, keeps
    the list the owner of its buffers. *)
Theorem BufferList_insert_keeps_ownership (h : heap) (l : BufferList)
  Key buf :
  owns h l -> l !! Key = None ->
  buf = NULL \/ (is_Some (h !! buf) /\ forall k, l !! k <> Some buf) ->
  exists l' : BufferList,
    BufferList_insert Key buf l = Returns tt l' /\ owns h l'.
Proof.
  intros [Hlive Hinj] Hfresh Hbuf. unfold BufferList_insert.
  rewrite Hfresh. eexists. split; [reflexivity|]. split.
  - intros k p Hk Hp. destruct (decide (k = Key)) as [->|Hne].
    + rewrite lookup_insert_eq in Hk. injection Hk as ->.
      destruct Hbuf as [?|[? _]]; [contradiction | assumption].
    + rewrite lookup_insert_ne in Hk by congruence. now apply (Hlive k).
  - intros k1 k2 p H1 H2 Hp.
    destruct (decide (k1 = Key)) as [->|Hne1],
             (decide (k2 = Key)) as [->|Hne2]; [reflexivity | | |].
    + rewrite lookup_insert_eq in H1. injection H1 as ->.
      rewrite lookup_insert_ne in H2 by congruence.
      destruct Hbuf as [?|[_ Hnew]]; [contradiction|]. now apply Hnew in H2.
    + rewrite lookup_insert_eq in H2. injection H2 as ->.
      rewrite lookup_insert_ne in H1 by congruence.
      destruct Hbuf as [?|[_ Hnew]]; [contradiction|]. now apply Hnew in H1.
    + rewrite lookup_insert_ne in H1, H2 by congruence.
      now apply (Hinj k1 k2 p).
Qed.

Lemma BufferList_insert_keeps_ownership_witness :
  exists l' : BufferList,
    BufferList_insert (sample_BUFFER INFO) NULL sample_list = Returns tt l' /\
    owns sample_heap l'.
Proof.
  apply (BufferList_insert_keeps_ownership sample_heap sample_list
           (sample_BUFFER INFO) NULL);
    [apply sample_list_owned | reflexivity | left; reflexivity].
Defined.

(** X18.  After a successful insertion the key answers with the inserted
    pointer through [getBuffer] and [operator[]], and any further
    insertion under the key throws and leaves that pointer in place. *)
Theorem BufferList_insert_then_lookup (l l' : BufferList) Key buf other :
  BufferList_insert Key buf l = Returns tt l' ->
  getBuffer l' Key = buf /\
  BufferList_at l' Key = buf /\
  BufferList_insert Key other l'
  = Throws "trying to add a buffer for an already-available key!" l' /\
  (forall k, l !! k = None -> k <> Key ->
     getBuffer l' k = NULL /\ BufferList_at l' k = NULL).
Proof.
  unfold BufferList_insert, getBuffer, BufferList_at.
  destruct (l !! Key) eqn:Hk; [discriminate|]. intros [= <-].
  rewrite lookup_insert_eq. repeat split; try reflexivity;
    rewrite lookup_insert_ne by congruence; now rewrite H.
Qed.

Lemma BufferList_insert_then_lookup_witness :
  getBuffer (<[sample_BUFFER INFO := 12288]> sample_list)
            (sample_BUFFER INFO) = 12288 /\
  BufferList_at (<[sample_BUFFER INFO := 12288]> sample_list)
                (sample_BUFFER INFO) = 12288 /\
  BufferList_insert (sample_BUFFER INFO) 16384
                    (<[sample_BUFFER INFO := 12288]> sample_list)
  = Throws "trying to add a buffer for an already-available key!"
           (<[sample_BUFFER INFO := 12288]> sample_list) /\
  (forall k, sample_list !! k = None -> k <> sample_BUFFER INFO ->
     getBuffer (<[sample_BUFFER INFO := 12288]> sample_list) k = NULL /\
     BufferList_at (<[sample_BUFFER INFO := 12288]> sample_list) k = NULL).
Proof.
  apply (BufferList_insert_then_lookup sample_list _ (sample_BUFFER INFO)
           12288 16384).
  reflexivity.
Defined.

(** When the run of deletions returns, every non-null pointer of the run
    was live and occurred once. *)
Lemma delete_each_returns ps (h h' : heap) :
  delete_each ps h = Some h' ->
  (forall p, p ∈ ps -> p <> NULL -> is_Some (h !! p)) /\
  NoDup (filter (fun p => p <> NULL) ps).
Proof.
  revert h. induction ps as [|p ps IH]; intros h Hrun.
  - split; [|constructor]. intros p Hp. now apply elem_of_nil in Hp.
  - cbn [delete_each] in Hrun. unfold delete_object in Hrun.
    destruct (Z.eqb_spec p NULL) as [Hnull|Hp].
    + destruct (IH h Hrun) as [Hlive Hnd]. split.
      * intros q [->|Hq]%elem_of_cons Hne; [contradiction|].
        now apply Hlive.
      * rewrite filter_cons_False by (intros Hne; now apply Hne).
        assumption.
    + destruct (h !! p) as [o|] eqn:Ho; [|discriminate].
      destruct (IH (delete p h) Hrun) as [Hlive Hnd].
      assert (Hother : forall q, q ∈ ps -> q <> NULL ->
                         q <> p /\ is_Some (h !! q)).
      { intros q Hq Hne. destruct (Hlive q Hq Hne) as [o' Ho'].
        destruct (decide (q = p)) as [->|Hqp].
        - rewrite lookup_delete_eq in Ho'. discriminate.
        - rewrite lookup_delete_ne in Ho' by congruence. eauto. }
      split.
      * intros q [->|Hq]%elem_of_cons Hne; [eauto|].
        now apply Hother.
      * rewrite filter_cons_True by assumption.
        apply NoDup_cons. split; [|assumption].
        intros [Hne Hin]%list_elem_of_filter.
        now destruct (Hother p Hin Hne).
Qed.

(** Pointers that occur once, the null ones aside, sit under one key. *)
Lemma NoDup_pointers_one_key (es : list (Z * pointer)) k1 k2 p :
  NoDup es.*1 ->
  NoDup (filter (fun p => p <> NULL) es.*2) ->
  (k1, p) ∈ es -> (k2, p) ∈ es -> p <> NULL -> k1 = k2.
Proof.
  induction es as [|[k q] es IH]; intros Hkeys Hnd H1 H2 Hp.
  - now apply elem_of_nil in H1.
  - cbn [fmap list_fmap fst snd] in *.
    apply NoDup_cons in Hkeys as [Hk Hkeys].
    assert (Hin : forall k', (k', p) ∈ es ->
                    p ∈ filter (fun p => p <> NULL) es.*2).
    { intros k' Hk'. apply list_elem_of_filter. split; [assumption|].
      apply list_elem_of_fmap. now exists (k', p). }
    destruct (decide (q = NULL)) as [Hq|Hq].
    + rewrite filter_cons_False in Hnd by (intros Hne; now apply Hne).
      apply elem_of_cons in H1 as [Heq1|H1]; [congruence|].
      apply elem_of_cons in H2 as [Heq2|H2]; [congruence|].
      now apply IH.
    + rewrite filter_cons_True in Hnd by assumption.
      apply NoDup_cons in Hnd as [Hfresh Hnd].
      apply elem_of_cons in H1 as [Heq1|H1];
        apply elem_of_cons in H2 as [Heq2|H2].
      * congruence.
      * exfalso. apply Hfresh. replace q with p by congruence.
        now apply (Hin k2).
      * exfalso. apply Hfresh. replace q with p by congruence.
        now apply (Hin k1).
      * now apply IH.
Qed.

(** [clear] returns on a list that owns its buffers. *)
Lemma clear_returns_when_owned (h : heap) (l : BufferList) :
  owns h l -> exists h' : heap, clear (h, l) = Returns tt (h', ∅).
Proof.
  intros [Hlive Hinj].
  destruct (delete_each_spec (entries l).*2 h) as (h' & Hrun & _).
  - intros p Hp Hne.
    apply list_elem_of_fmap in Hp as ([k p'] & -> & Hin).
    apply entries_spec in Hin. now apply (Hlive k).
  - apply owned_pointers_NoDup; [apply entries_keys_NoDup|].
    intros k1 k2 p H1%entries_spec H2%entries_spec. now apply Hinj.
  - exists h'. unfold clear. cbn [fst snd]. now rewrite Hrun.
Qed.

(** X19.  [clear] never throws, and it returns exactly for the lists
    that own their buffers: when a held pointer is dangling, or one
    object is held under two keys, a [delete] in its loop is undefined. *)
Theorem clear_returns_iff_owned (h : heap) (l : BufferList) :
  (owns h l <-> exists h' : heap, clear (h, l) = Returns tt (h', ∅)) /\
  (~ owns h l -> clear (h, l) = Faults) /\
  (forall msg s, clear (h, l) <> Throws msg s).
Proof.
  assert (Hiff : owns h l
                 <-> exists h' : heap, clear (h, l) = Returns tt (h', ∅)).
  { split.
    - intros Howns. destruct (clear_returns_when_owned h l Howns) as (h' & Hc).
      eauto.
    - intros [h' Hc]. unfold clear in Hc. cbn [fst snd] in Hc.
      destruct (delete_each (entries l).*2 h) as [h1|] eqn:Hrun;
        [|discriminate].
      destruct (delete_each_returns _ _ _ Hrun) as [Hlive Hnd]. split.
      + intros k p Hk Hp. apply Hlive; [|assumption].
        apply list_elem_of_fmap. exists (k, p).
        split; [reflexivity | now apply entries_spec].
      + intros k1 k2 p H1%entries_spec H2%entries_spec Hp.
        exact (NoDup_pointers_one_key _ _ _ _ (entries_keys_NoDup l)
                 Hnd H1 H2 Hp). }
  split; [exact Hiff|]. split.
  - intros Hnot. unfold clear. cbn [fst snd].
    destruct (delete_each (entries l).*2 h) as [h1|] eqn:Hrun;
      [|reflexivity].
    exfalso. apply Hnot. apply Hiff. exists h1.
    unfold clear. cbn [fst snd]. now rewrite Hrun.
  - intros msg s. unfold clear.
    destruct (delete_each _ _); discriminate.
Qed.

Lemma clear_returns_iff_owned_witness :
  clear (sample_heap, <[KEY_VEL := 4096]> sample_list) = Faults.
Proof.
  apply (clear_returns_iff_owned sample_heap (<[KEY_VEL := 4096]> sample_list)).
  intros [_ Hinj].
  assert (Heq : KEY_POS = KEY_VEL).
  { apply (Hinj KEY_POS KEY_VEL 4096); by_evaluation. }
  discriminate Heq.
Defined.

(** ** Writing the device map *)

Example saveDeviceMapToFile_sample :
  saveDeviceMapToFile min_int_int 1 grid222
  = Some ("X,Y,Z,LINEARIZED,VALUE" ++ newline
          ++ "0,0,0,0,0" ++ newline ++ "0,0,1,4,3" ++ newline
          ++ "0,1,0,2,2" ++ newline ++ "0,1,1,6,1" ++ newline
          ++ "1,0,0,1,1" ++ newline ++ "1,0,1,5,2" ++ newline
          ++ "1,1,0,3,3" ++ newline ++ "1,1,1,7,0" ++ newline)%string.
Proof. vm_compute. reflexivity. Qed.

Lemma for_each_Some xs body (g : Z -> list csv_row) :
  (forall i, i ∈ xs -> body i = Some (g i)) ->
  for_each xs body = Some (xs ≫= g).
Proof.
  induction xs as [|i xs IH]; intros Hbody; [reflexivity|].
  cbn [for_each]. rewrite Hbody by now left.
  rewrite IH by (intros j Hj; apply Hbody; now right).
  reflexivity.
Qed.

Lemma for_int_Some bound body (g : Z -> list csv_row) :
  bound <= 2147483647 ->
  (forall i, 0 <= i < bound -> body i = Some (g i)) ->
  for_int bound body = Some (seqZ 0 bound ≫= g).
Proof.
  intros Hb Hbody. unfold for_int.
  destruct (Z.ltb_spec 2147483647 bound); [lia|].
  apply for_each_Some. intros i Hi%elem_of_seqZ. apply Hbody. lia.
Qed.

Lemma axes_fit_counter_int gd : axes_fit_counter gd -> axes_fit_int gd.
Proof. unfold axes_fit_counter, axes_fit_int. lia. Qed.

(** The loops return the rows in loop order when no axis has more than
    [2^31 - 1] cells, so that no counter is incremented at [INT_MAX],
    and every entry they read exists. *)
Lemma tableRows_Some ov value (f : Z -> Z) gd :
  axes_fit_counter gd ->
  (forall ix iy iz, in_grid gd (make_vec3 ix iy iz) ->
     value (calcGridHashHost3 ov gd ix iy iz)
     = Some (f (calcGridHashHost3 ov gd ix iy iz))) ->
  tableRows ov value gd = Some (rowsInOrder ov f gd).
Proof.
  intros (Hfx & Hfy & Hfz) Hvalue. unfold tableRows, rowsInOrder.
  apply for_int_Some; [assumption|]. intros ix Hix.
  apply for_int_Some; [assumption|]. intros iy Hiy.
  apply for_int_Some; [assumption|]. intros iz Hiz.
  rewrite Hvalue by (unfold in_grid; cbn [x_ y_ z_]; lia).
  reflexivity.
Qed.

Lemma elem_of_rowsInOrder ov f gd r :
  r ∈ rowsInOrder ov f gd <->
  in_grid gd (make_vec3 (row_x r) (row_y r) (row_z r)) /\
  row_lin r = calcGridHashHost3 ov gd (row_x r) (row_y r) (row_z r) /\
  row_value r = f (row_lin r).
Proof.
  unfold rowsInOrder, in_grid. cbn [x_ y_ z_]. split.
  - intros (ix & (iy & (iz & ->%list_elem_of_singleton & Hiz%elem_of_seqZ)
                          %list_elem_of_bind & Hiy%elem_of_seqZ)
                   %list_elem_of_bind & Hix%elem_of_seqZ)%list_elem_of_bind.
    cbn [row_x row_y row_z row_lin row_value].
    repeat split; (reflexivity || lia).
  - intros ((Hx & Hy & Hz) & Hlin & Hval).
    apply list_elem_of_bind. exists (row_x r). split;
      [|apply elem_of_seqZ; lia].
    apply list_elem_of_bind. exists (row_y r). split;
      [|apply elem_of_seqZ; lia].
    apply list_elem_of_bind. exists (row_z r). split;
      [|apply elem_of_seqZ; lia].
    apply list_elem_of_singleton. destruct r. cbn in *. now subst.
Qed.

Lemma NoDup_rowsInOrder ov f gd : NoDup (rowsInOrder ov f gd).
Proof.
  unfold rowsInOrder.
  apply NoDup_bind; [| |apply NoDup_seqZ].
  { intros i1 i2 r _ _
      (iy & (iz & ->%list_elem_of_singleton & _)%list_elem_of_bind & _)
        %list_elem_of_bind
      (iy' & (iz' & [= -> _ _]%list_elem_of_singleton & _)
               %list_elem_of_bind & _)%list_elem_of_bind.
    reflexivity. }
  intros ix _. apply NoDup_bind; [| |apply NoDup_seqZ].
  { intros i1 i2 r _ _
      (iz & ->%list_elem_of_singleton & _)%list_elem_of_bind
      (iz' & [= -> _]%list_elem_of_singleton & _)%list_elem_of_bind.
    reflexivity. }
  intros iy _. apply NoDup_bind; [| |apply NoDup_seqZ].
  { intros i1 i2 r _ _ ->%list_elem_of_singleton
      [= ->]%list_elem_of_singleton.
    reflexivity. }
  intros iz _. apply NoDup_singleton.
Qed.

(** The hash of a cell inside a grid whose coordinates fit [int]. *)
Lemma calcGridHashHost3_in_grid ov gd ix iy iz :
  grid_wf gd -> axes_fit_int gd -> in_grid gd (make_vec3 ix iy iz) ->
  calcGridHashHost3 ov gd ix iy iz
  = (iz * y_ (gridSize gd) + iy) * x_ (gridSize gd) + ix /\
  0 <= calcGridHashHost3 ov gd ix iy iz < nGridCells gd.
Proof.
  intros Hwf Hfit Hin. rewrite calcGridHashHost3_eq.
  pose proof Hfit as (Hfx & Hfy & Hfz).
  pose proof Hin as (Hx & Hy & Hz). cbn [x_ y_ z_] in *.
  apply (calcGridHashHost_in_grid ov gd (make_vec3 ix iy iz));
    try assumption; [|right; assumption].
  unfold is_int3, is_int, INT_MIN, INT_MAX. cbn [x_ y_ z_].
  change (2 ^ 31) with 2147483648. lia.
Qed.

(** The hashes of the rows are the numbers [0 .. nGridCells-1], each
    once. *)
Lemma rowsInOrder_hashes ov f gd :
  grid_wf gd -> axes_fit_int gd ->
  row_lin <$> rowsInOrder ov f gd ≡ₚ seqZ 0 (nGridCells gd).
Proof.
  intros Hwf Hfit.
  apply NoDup_Permutation; [| apply NoDup_seqZ |].
  - apply NoDup_fmap_2_strong; [|apply NoDup_rowsInOrder].
    intros r1 r2 (Hin1 & Hl1 & Hv1)%elem_of_rowsInOrder
                 (Hin2 & Hl2 & Hv2)%elem_of_rowsInOrder Heq.
    destruct (calcGridHashHost3_in_grid ov gd _ _ _ Hwf Hfit Hin1) as [He1 _].
    destruct (calcGridHashHost3_in_grid ov gd _ _ _ Hwf Hfit Hin2) as [He2 _].
    assert (Hcell : make_vec3 (row_x r1) (row_y r1) (row_z r1)
                    = make_vec3 (row_x r2) (row_y r2) (row_z r2)).
    { pose proof Hin1 as (? & ? & ?). pose proof Hin2 as (? & ? & ?).
      cbn [x_ y_ z_] in *.
      rewrite <- (unlinearize_linear (gridSize gd)
                    (make_vec3 (row_x r1) (row_y r1) (row_z r1)))
        by (cbn [x_ y_ z_]; lia).
      rewrite <- (unlinearize_linear (gridSize gd)
                    (make_vec3 (row_x r2) (row_y r2) (row_z r2)))
        by (cbn [x_ y_ z_]; lia).
      cbn [x_ y_ z_]. congruence. }
    injection Hcell as Hx Hy Hz.
    destruct r1, r2. cbn in *. congruence.
  - intros h. rewrite elem_of_seqZ, list_elem_of_fmap. split.
    + intros (r & -> & (Hin & Hl & _)%elem_of_rowsInOrder).
      rewrite Hl.
      destruct (calcGridHashHost3_in_grid ov gd _ _ _ Hwf Hfit Hin). lia.
    + intros Hh. assert (Hh' : 0 <= h < nGridCells gd) by lia.
      destruct (grid_wf_positive gd h Hwf Hh') as (Hx & Hy & Hz).
      assert (Hprod : nGridCells gd
                      = x_ (gridSize gd) * y_ (gridSize gd)
                        * z_ (gridSize gd)) by apply Hwf.
      pose proof (unlinearize_bounds (gridSize gd) h Hx Hy) as Hb.
      rewrite <- Hprod in Hb. specialize (Hb Hh'). cbv zeta in Hb.
      destruct Hb as (Hbx & Hby & Hbz & Hlin).
      set (c := unlinearize (gridSize gd) h) in *.
      assert (Hin : in_grid gd (make_vec3 (x_ c) (y_ c) (z_ c)))
        by (unfold in_grid; cbn [x_ y_ z_]; lia).
      destruct (calcGridHashHost3_in_grid ov gd _ _ _ Hwf Hfit Hin)
        as [He _].
      exists (mk_csv_row (x_ c) (y_ c) (z_ c) h (f h)).
      split; [reflexivity|]. apply elem_of_rowsInOrder.
      cbn [row_x row_y row_z row_lin row_value].
      split; [assumption|]. split; [lia | reflexivity].
Qed.

(** What the rows of either table satisfy. *)
Lemma tableRows_cover ov value (f : Z -> Z) gd :
  grid_wf gd -> axes_fit_counter gd ->
  (forall h, 0 <= h < nGridCells gd -> value h = Some (f h)) ->
  exists rows,
    tableRows ov value gd = Some rows /\
    row_lin <$> rows ≡ₚ seqZ 0 (nGridCells gd) /\
    length rows = Z.to_nat (nGridCells gd) /\
    forall r, r ∈ rows ->
      in_grid gd (make_vec3 (row_x r) (row_y r) (row_z r)) /\
      row_lin r = (row_z r * y_ (gridSize gd) + row_y r) * x_ (gridSize gd)
                  + row_x r /\
      row_value r = f (row_lin r).
Proof.
  intros Hwf Hcnt Hvalue. exists (rowsInOrder ov f gd).
  pose proof (axes_fit_counter_int gd Hcnt) as Hfit.
  pose proof (rowsInOrder_hashes ov f gd Hwf Hfit) as Hperm.
  split; [|split; [exact Hperm|split]].
  - apply tableRows_Some; [assumption|]. intros ix iy iz Hin.
    apply Hvalue. now apply calcGridHashHost3_in_grid.
  - rewrite <- (length_fmap row_lin), Hperm. apply length_seqZ.
  - intros r (Hin & Hl & Hv)%elem_of_rowsInOrder.
    split; [assumption|]. split; [|assumption]. rewrite Hl.
    now apply calcGridHashHost3_in_grid.
Qed.

(** X20.  When [fopen] succeeded, no axis has more than [2^31 - 1]
    cells, so that no loop counter is incremented at [INT_MAX], and the
    device map has an entry for every cell, [saveDeviceMapToFile],
    whichever [min] is selected, writes the header and then one line per cell:
    the hashes of the lines are the numbers [0 .. nGridCells-1], each
    exactly once, and each line carries the coordinates of its cell, its
    hash and the map entry at that hash. *)
Theorem saveDeviceMapToFile_covers ov fid gd (map : list Z) :
  fid <> NULL -> grid_wf gd -> axes_fit_counter gd ->
  s_hDeviceMap gd = Some map ->
  nGridCells gd <= Z.of_nat (length map) ->
  exists rows,
    saveDeviceMapToFile ov fid gd = Some (tableText rows) /\
    row_lin <$> rows ≡ₚ seqZ 0 (nGridCells gd) /\
    length rows = Z.to_nat (nGridCells gd) /\
    forall r, r ∈ rows ->
      in_grid gd (make_vec3 (row_x r) (row_y r) (row_z r)) /\
      row_lin r = (row_z r * y_ (gridSize gd) + row_y r) * x_ (gridSize gd)
                  + row_x r /\
      map !! Z.to_nat (row_lin r) = Some (row_value r).
Proof.
  intros Hfid Hwf Hfit Hmap Hlen.
  destruct (tableRows_cover ov
              (fun h => map ← s_hDeviceMap gd; map !! Z.to_nat h)
              (fun h => default 0 (map !! Z.to_nat h)) gd Hwf Hfit)
    as (rows & Hrun & Hperm & Hcount & Hrows).
  { intros h Hh. rewrite Hmap. cbn [mbind option_bind].
    destruct (lookup_lt_is_Some_2 map (Z.to_nat h)) as [v Hv]; [lia|].
    now rewrite Hv. }
  exists rows. unfold saveDeviceMapToFile.
  destruct (Z.eqb_spec fid NULL); [contradiction|].
  rewrite Hrun. cbn [mbind option_bind].
  split; [reflexivity|]. split; [exact Hperm|]. split; [exact Hcount|].
  intros r Hr. destruct (Hrows r Hr) as (Hin & Hl & Hv).
  split; [assumption|]. split; [assumption|].
  assert (Hrange : row_lin r ∈ seqZ 0 (nGridCells gd)).
  { rewrite <- Hperm. apply list_elem_of_fmap. now exists r. }
  apply elem_of_seqZ in Hrange.
  destruct (lookup_lt_is_Some_2 map (Z.to_nat (row_lin r))) as [v Hlook];
    [lia|].
  rewrite Hv, Hlook. reflexivity.
Qed.

Lemma saveDeviceMapToFile_covers_witness :
  exists rows,
    saveDeviceMapToFile min_int_int 1 grid222 = Some (tableText rows) /\
    row_lin <$> rows ≡ₚ seqZ 0 (nGridCells grid222) /\
    length rows = Z.to_nat (nGridCells grid222) /\
    forall r, r ∈ rows ->
      in_grid grid222 (make_vec3 (row_x r) (row_y r) (row_z r)) /\
      row_lin r = (row_z r * y_ (gridSize grid222) + row_y r)
                  * x_ (gridSize grid222) + row_x r /\
      [0; 1; 2; 3; 3; 2; 1; 0] !! Z.to_nat (row_lin r) = Some (row_value r).
Proof.
  apply (saveDeviceMapToFile_covers min_int_int 1 grid222
           [0; 1; 2; 3; 3; 2; 1; 0]);
    by_evaluation.
Defined.

(** X21.  Under the same conditions on [fopen] and the grid, and with a
    compact device map that has an entry for every cell,
    [saveCompactDeviceMapToFile] writes one line per cell, each hash
    exactly once, with the two top bits of the entry at that hash as the
    value. *)
Theorem saveCompactDeviceMapToFile_covers ov fid gd
  (compactDeviceMap : list Z) :
  fid <> NULL -> grid_wf gd -> axes_fit_counter gd ->
  nGridCells gd <= Z.of_nat (length compactDeviceMap) ->
  exists rows,
    saveCompactDeviceMapToFile ov fid compactDeviceMap gd
    = Some (tableText rows) /\
    row_lin <$> rows ≡ₚ seqZ 0 (nGridCells gd) /\
    forall r, r ∈ rows ->
      exists v, compactDeviceMap !! Z.to_nat (row_lin r) = Some v /\
                row_value r = Z.shiftr v 30 /\
                (is_uint v -> 0 <= row_value r <= 3).
Proof.
  intros Hfid Hwf Hfit Hlen.
  destruct (tableRows_cover ov
              (fun h => v ← compactDeviceMap !! Z.to_nat h;
                        Some (Z.shiftr v 30))
              (fun h => Z.shiftr
                          (default 0 (compactDeviceMap !! Z.to_nat h)) 30)
              gd Hwf Hfit)
    as (rows & Hrun & Hperm & Hcount & Hrows).
  { intros h Hh.
    destruct (lookup_lt_is_Some_2 compactDeviceMap (Z.to_nat h)) as [v Hv];
      [lia|].
    now rewrite Hv. }
  exists rows. unfold saveCompactDeviceMapToFile.
  destruct (Z.eqb_spec fid NULL); [contradiction|].
  rewrite Hrun. cbn [mbind option_bind].
  split; [reflexivity|]. split; [exact Hperm|].
  intros r Hr. destruct (Hrows r Hr) as (Hin & Hl & Hv).
  assert (Hrange : row_lin r ∈ seqZ 0 (nGridCells gd)).
  { rewrite <- Hperm. apply list_elem_of_fmap. now exists r. }
  apply elem_of_seqZ in Hrange.
  destruct (lookup_lt_is_Some_2 compactDeviceMap (Z.to_nat (row_lin r)))
    as [v Hlook]; [lia|].
  exists v. split; [assumption|]. rewrite Hv, Hlook.
  change (default 0 (Some v)) with v.
  split; [reflexivity|].
  intros Hu%is_uint_bounds. rewrite Z.shiftr_div_pow2 by lia.
  change (2 ^ 30) with 1073741824. split.
  - apply Z.div_pos; lia.
  - apply Z.lt_succ_r. apply Z.div_lt_upper_bound; lia.
Qed.

Lemma saveCompactDeviceMapToFile_covers_witness :
  exists rows,
    saveCompactDeviceMapToFile min_int_int 1 (repeat 3221225472 8) grid222
    = Some (tableText rows) /\
    row_lin <$> rows ≡ₚ seqZ 0 (nGridCells grid222) /\
    forall r, r ∈ rows ->
      exists v, repeat 3221225472 8 !! Z.to_nat (row_lin r) = Some v /\
                row_value r = Z.shiftr v 30 /\
                (is_uint v -> 0 <= row_value r <= 3).
Proof.
  apply (saveCompactDeviceMapToFile_covers min_int_int 1 grid222
           (repeat 3221225472 8));
    by_evaluation.
Defined.

(** X22.  [saveDeviceMapToFile] does not test what [fopen] returned:
    with a null stream its first [fprintf] is undefined.  It is also
    undefined when [gridSize.x] exceeds [2^31 - 1] (the [int] counter
    overflows) and, on a grid with at least one cell, when the device
    map is null. *)
Theorem saveDeviceMapToFile_undefined ov fid gd :
  (fid = NULL -> saveDeviceMapToFile ov fid gd = None) /\
  (2147483647 < x_ (gridSize gd) -> saveDeviceMapToFile ov fid gd = None) /\
  (s_hDeviceMap gd = None ->
   0 < x_ (gridSize gd) <= 2147483648 ->
   0 < y_ (gridSize gd) <= 2147483648 ->
   0 < z_ (gridSize gd) <= 2147483648 ->
   saveDeviceMapToFile ov fid gd = None).
Proof.
  unfold saveDeviceMapToFile. split; [|split].
  - intros ->. reflexivity.
  - intros Hx. destruct (fid =? NULL); [reflexivity|].
    unfold tableRows, for_int.
    destruct (Z.ltb_spec 2147483647 (x_ (gridSize gd))); [reflexivity | lia].
  - intros Hmap Hx Hy Hz. destruct (fid =? NULL); [reflexivity|].
    unfold tableRows, for_int. rewrite Hmap.
    destruct (Z.ltb_spec 2147483647 (x_ (gridSize gd))); [reflexivity|].
    rewrite (seqZ_cons 0 (x_ (gridSize gd))) by lia.
    destruct (Z.ltb_spec 2147483647 (y_ (gridSize gd))); [reflexivity|].
    rewrite (seqZ_cons 0 (y_ (gridSize gd))) by lia.
    destruct (Z.ltb_spec 2147483647 (z_ (gridSize gd))); [reflexivity|].
    rewrite (seqZ_cons 0 (z_ (gridSize gd))) by lia.
    reflexivity.
Qed.

Lemma saveDeviceMapToFile_undefined_witness :
  saveDeviceMapToFile min_int_int NULL grid222 = None /\
  saveDeviceMapToFile min_int_int 1 grid222_no_map = None.
Proof.
  split.
  - destruct (saveDeviceMapToFile_undefined min_int_int NULL grid222)
      as (Hnull & _).
    apply Hnull. reflexivity.
  - destruct (saveDeviceMapToFile_undefined min_int_int 1 grid222_no_map)
      as (_ & _ & Hmap).
    apply Hmap; by_evaluation.
Defined.
